(** * GophKeeper CLI: the secret transfer client

    A shallow embedding of the client core of ya-gophkeeper-cli:
    the domain model ([internal/domain]), the wire mappers, the
    authentication interceptor, the chunked upload and download codec
    ([internal/interfaces/grpc]) and the two application services
    ([internal/application]).

    Conventions.
    - A Go result pair [(v, err)] is a sum: [inl v] when [err == nil],
      [inr err] otherwise.  A Go [error] result alone is [option error],
      [None] standing for [nil].
    - Mutable collaborators (the token store, a gRPC stream, an
      [io.Reader], the connection) are values threaded through the calls.
    - [[]byte] is [list byte]; Go [string] is [string]; [int32] and enum
      values are [Z]; slice lengths are [nat]. *)

From Stdlib Require Import ZArith Lia Strings.Byte.
From stdpp Require Import base list strings gmap.

Local Open Scope string_scope.
Local Open Scope list_scope.

(* ===================================================================== *)
(** ** Errors *)
(* ===================================================================== *)

(** gRPC status codes ([google.golang.org/grpc/codes]); only the ones the
    client inspects are named. *)
Inductive Code :=
  | codes_AlreadyExists
  | codes_InvalidArgument
  | codes_NotFound
  | codes_Unauthenticated
  | codes_Unavailable
  | codes_Other (n : Z).

(** Go [error] values as the client builds and tests them: the sentinels
    of [io] and of the domain package, gRPC status errors, errors carrying
    only a message, and [fmt.Errorf("<prefix>: %w", err)] wrappers. *)
Inductive error :=
  | io_EOF
  | ErrTokenNotFound
  | ErrLoginAlreayExists
  | ErrInvalidCredentials
  | ErrUserNotFound
  | ErrUnknownSecretType
  | status_Error (c : Code) (msg : string)
  | errors_New (msg : string)
  | fmt_Errorf (prefix : string) (wrapped : error).

#[global] Instance Code_eq_dec : EqDecision Code.
Proof. solve_decision. Defined.

#[global] Instance error_eq_dec : EqDecision error.
Proof. solve_decision. Defined.

(** [errors.Is]: the target is found somewhere on the [%w] chain. *)
Fixpoint errors_Is (err target : error) : bool :=
  if decide (err = target) then true
  else match err with
       | fmt_Errorf _ wrapped => errors_Is wrapped target
       | _ => false
       end.

(** [status.FromError]: the code of the status carried by the error or by
    one it wraps; [None] is Go's [ok == false]. *)
Fixpoint status_FromError (err : error) : option Code :=
  match err with
  | status_Error c _ => Some c
  | fmt_Errorf _ wrapped => status_FromError wrapped
  | _ => None
  end.

(* ===================================================================== *)
(** ** Domain model ([internal/domain]) *)
(* ===================================================================== *)

(** [type SecretType string]: any string is a value of the type, four of
    them are named. *)
Definition SecretType := string.

Definition CredentialsSecretType : SecretType := "credentials".
Definition PaymentCardSecretType : SecretType := "payment_card".
Definition FileSecretType : SecretType := "file".
Definition TextSecretType : SecretType := "text".

Record SecretInfo := mkSecretInfo {
  Name : string;
  Type_ : SecretType;
  Metadata : string;
  Version : Z;
  CreatedAt : Z
}.

Record Secret := mkSecret {
  Info : SecretInfo;
  Data : string
}.

(** The token store interface ([domain.TokenRepository]) over a store
    state [T]. *)
Class TokenRepository (T : Type) := {
  GetToken : T -> string + error;
  SaveToken : string -> T -> option error * T
}.

(* ===================================================================== *)
(** ** Wire messages (generated package [pb]) *)
(* ===================================================================== *)

(** The numeric values of the wire enumeration [pb.SecretType] come from
    generated code; they are taken as parameters. *)
Class PbSecretType := {
  SecretType_CREDENTIALS : Z;
  SecretType_PAYMENT_CARD : Z;
  SecretType_BINARY : Z;
  SecretType_TEXT : Z
}.

Record CreateSecretInfoRequest := mkCreateSecretInfoRequest {
  csi_Name : string;
  csi_Type : Z;
  csi_Metadata : string
}.

Record CreateSecretRequest := mkCreateSecretRequest {
  csr_Info : CreateSecretInfoRequest;
  csr_Data : string
}.

(** The [oneof chunk] of an upload message. *)
Inductive CreateSecretChunkRequest :=
  | CreateSecretChunkRequest_Info (info : CreateSecretInfoRequest)
  | CreateSecretChunkRequest_Data (data : list byte).

Record GetSecretInfoResponse := mkGetSecretInfoResponse {
  gsi_Name : string;
  gsi_Type : Z;
  gsi_Metadata : string;
  gsi_Version : Z;
  gsi_CreatedAt : Z
}.

(** A [nil] info message answers every getter with the zero value. *)
Record GetSecretResponse := mkGetSecretResponse {
  gsr_Info : option GetSecretInfoResponse;
  gsr_Data : string
}.

Record AuthRequest := mkAuthRequest {
  ar_Login : string;
  ar_Password : string
}.

Record AuthResponse := mkAuthResponse { Token : string }.

(** The [oneof chunk] of a download message as it is decoded from the
    wire; the last constructor is a message whose [Chunk] is unset.  The
    payload of a [Data] message may be empty: decoding keeps it a non-nil
    slice of length zero. *)
Inductive GetSecretChunkResponse :=
  | GetSecretChunkResponse_Info (info : GetSecretInfoResponse)
  | GetSecretChunkResponse_Data (data : list byte)
  | GetSecretChunkResponse_unset.

Definition GetInfo (m : GetSecretChunkResponse) : option GetSecretInfoResponse :=
  match m with
  | GetSecretChunkResponse_Info info => Some info
  | _ => None
  end.

Definition GetData (m : GetSecretChunkResponse) : option (list byte) :=
  match m with
  | GetSecretChunkResponse_Data data => Some data
  | _ => None
  end.

#[global] Instance CreateSecretInfoRequest_eq_dec : EqDecision CreateSecretInfoRequest.
Proof. solve_decision. Defined.

(* ===================================================================== *)
(** ** Mappers between the domain and the wire *)
(* ===================================================================== *)

Section Mappers.
Context {wire : PbSecretType}.

Definition mapProtoSecretTypeToDomain (stype : Z) : SecretType :=
  if decide (stype = SecretType_CREDENTIALS) then CredentialsSecretType
  else if decide (stype = SecretType_PAYMENT_CARD) then PaymentCardSecretType
  else if decide (stype = SecretType_BINARY) then FileSecretType
  else if decide (stype = SecretType_TEXT) then TextSecretType
  else "unknown".

Definition mapDomainSecretTypeToProto (domainType : SecretType) : Z :=
  if decide (domainType = CredentialsSecretType) then SecretType_CREDENTIALS
  else if decide (domainType = TextSecretType) then SecretType_TEXT
  else if decide (domainType = FileSecretType) then SecretType_BINARY
  else if decide (domainType = PaymentCardSecretType) then SecretType_PAYMENT_CARD
  else (-1)%Z.

Definition mapProtoGetSecretInfoResponseToDomainSecretInfo
    (info : option GetSecretInfoResponse) : SecretInfo :=
  {| Name := from_option gsi_Name "" info;
     Metadata := from_option gsi_Metadata "" info;
     Version := from_option gsi_Version 0%Z info;
     Type_ := mapProtoSecretTypeToDomain (from_option gsi_Type 0%Z info);
     CreatedAt := from_option gsi_CreatedAt 0%Z info |}.

Definition mapProtoGetSecretResponseToDomainSecret (resp : GetSecretResponse) : Secret :=
  {| Info := mapProtoGetSecretInfoResponseToDomainSecretInfo (gsr_Info resp);
     Data := gsr_Data resp |}.

Definition mapDomainSecretInfoToProtoCreateSecretInfoRequest
    (secretInfo : SecretInfo) : CreateSecretInfoRequest :=
  {| csi_Name := Name secretInfo;
     csi_Type := mapDomainSecretTypeToProto (Type_ secretInfo);
     csi_Metadata := Metadata secretInfo |}.

End Mappers.

(* ===================================================================== *)
(** ** The token store on disk ([internal/infrastructure/persistence]) *)
(* ===================================================================== *)

(** What [os.ReadFile] finds at the token path. *)
Inductive TokenFile :=
  | NotExist
  | Unreadable (err : error)
  | Contents (data : string).

(** [TokenRepo]: the token file, and the answers that [os.MkdirAll] and
    [os.WriteFile] will give to [SaveToken]. *)
Record TokenRepo := mkTokenRepo {
  tokenFile : TokenFile;
  mkdirResult : option error;
  writeResult : option error
}.

Definition TokenRepo_GetToken (r : TokenRepo) : string + error :=
  match tokenFile r with
  | NotExist => inr ErrTokenNotFound
  | Unreadable err => inr (fmt_Errorf "failed to read token" err)
  | Contents data =>
      if decide (String.length data = 0) then inr ErrTokenNotFound
      else inl data
  end.

Definition TokenRepo_SaveToken (token : string) (r : TokenRepo) : option error * TokenRepo :=
  if decide (token = "") then (Some (errors_New "cannot save empty token"), r)
  else match mkdirResult r with
       | Some err => (Some (fmt_Errorf "failed to ensure token directory exists" err), r)
       | None =>
           match writeResult r with
           | Some err => (Some (fmt_Errorf "failed to write token" err), r)
           | None => (None, {| tokenFile := Contents token;
                               mkdirResult := mkdirResult r;
                               writeResult := writeResult r |})
           end
       end.

#[global] Instance TokenRepo_TokenRepository : TokenRepository TokenRepo :=
  {| GetToken := TokenRepo_GetToken; SaveToken := TokenRepo_SaveToken |}.

(* ===================================================================== *)
(** ** Call context and the authentication interceptor
       ([internal/interfaces/grpc/interceptors]) *)
(* ===================================================================== *)

(** [metadata.MD] is [map[string][]string]. *)
Abbreviation MD := (gmap string (list string)).

(** The part of a [context.Context] the client touches: its deadline
    (opaque) and the outgoing metadata, if any was attached. *)
Record Context := mkContext {
  deadline : option Z;
  outgoing : option MD
}.

(** [metadata.Pairs(k, v)] for one pair whose key is already lower case. *)
Definition metadata_Pairs (k v : string) : MD := {[ k := [v] ]}.

(** [metadata.NewOutgoingContext]: the metadata replaces what was there. *)
Definition metadata_NewOutgoingContext (ctx : Context) (md : MD) : Context :=
  {| deadline := deadline ctx; outgoing := Some md |}.

(** The RPCs of the secret service; they stand for the full method names
    of the generated code. *)
Inductive Method :=
  | M_CreateSecret
  | M_CreateSecretStream
  | M_ListSecrets
  | M_GetLatestSecret
  | M_GetLatestSecretStream
  | M_GetSecretByVersion
  | M_GetSecretStreamByVersion
  | M_DeleteSecret.

Section Interceptor.
Context {T : Type} {tokens : TokenRepository T}.

Record AuthInterceptor := mkAuthInterceptor { repo : T }.

Definition NewAuthInterceptor (repo : T) : AuthInterceptor :=
  {| repo := repo |}.

Definition injectAuthMetadata (i : AuthInterceptor) (ctx : Context) : Context + error :=
  match GetToken (repo i) with
  | inr err => inr (fmt_Errorf "failed to get token" err)
  | inl token =>
      let md := metadata_Pairs "authorization" ("Bearer " +:+ token) in
      inl (metadata_NewOutgoingContext ctx md)
  end.

(** The invoker (resp. streamer) is the continuation gRPC hands to the
    interceptor; it acts on the connection state [W].  The reply is the
    value the invoker stores through its [reply] argument; the connection,
    the stream descriptor and the call options are handed on as they came
    and are left out. *)
Definition UnaryInterceptor {Req Reply W : Type} (i : AuthInterceptor)
    (ctx : Context) (method : Method) (req : Req)
    (invoker : Context -> Method -> Req -> W -> (Reply + error) * W)
    (w : W) : (Reply + error) * W :=
  match injectAuthMetadata i ctx with
  | inr err => (inr err, w)
  | inl ctx => invoker ctx method req w
  end.

Definition StreamInterceptor {Stream W : Type} (i : AuthInterceptor)
    (ctx : Context) (method : Method)
    (streamer : Context -> Method -> W -> (Stream + error) * W)
    (w : W) : (Stream + error) * W :=
  match injectAuthMetadata i ctx with
  | inr err => (inr err, w)
  | inl ctx => streamer ctx method w
  end.

End Interceptor.

Arguments AuthInterceptor T : clear implicits.

(* ===================================================================== *)
(** ** Byte sources and gRPC streams *)
(* ===================================================================== *)

(** An [io.Reader] as the ones the CLI hands over behave ([*os.File],
    [*io.PipeReader], [*bytes.Reader]): the bytes become available in
    segments (the writes of the pipe, the extents a file read returns); a
    [Read] hands out at most the front segment with a [nil] error, and once
    every segment is consumed it answers [(0, ending)], [ending] being
    [io.EOF] for a source that ends normally.  None of these readers
    returns bytes together with an error. *)
Record Reader := mkReader {
  pending : list (list byte);
  ending : error
}.

(** [n, err := reader.Read(buf)] with [len(buf) = size]: the result is
    [(buf[:n], err)]. *)
Definition Reader_Read (r : Reader) (size : nat) : (list byte * option error) * Reader :=
  match pending r with
  | [] => (([], Some (ending r)), r)
  | seg :: rest =>
      ((take size seg, None),
       {| pending := if decide (length seg <= size) then rest
                     else drop size seg :: rest;
          ending := ending r |})
  end.

(** The bytes a source holds. *)
Definition content (r : Reader) : list byte := concat (pending r).

(** [bytes.NewReader(b)] and a pipe fed one write per element. *)
Definition bytes_NewReader (b : list byte) : Reader :=
  {| pending := match b with [] => [] | _ => [b] end; ending := io_EOF |}.

Definition io_Pipe (writes : list (list byte)) : Reader :=
  {| pending := writes; ending := io_EOF |}.

(** [io.ReadAll]: everything up to the end of the source; [io.EOF] itself
    (compared with [==]) is not reported. *)
Definition io_ReadAll (r : Reader) : (list byte * option error) * Reader :=
  ((content r, if decide (ending r = io_EOF) then None else Some (ending r)),
   {| pending := []; ending := ending r |}).

(** The client side of the upload stream
    ([pb.SecretService_CreateSecretStreamClient]): the messages
    transmitted so far, the answers the coming [Send] calls will get
    ([nil] once the list is used up), and the answer of [CloseAndRecv].
    gRPC serialises a message before [Send] returns, so what is transmitted
    is the payload as it is at the call, although [sendDataChunks] reuses
    its buffer for the next read; a [Send] that fails transmits nothing. *)
Record CreateSecretStreamClient := mkCreateSecretStreamClient {
  cs_sent : list CreateSecretChunkRequest;
  cs_sendResults : list (option error);
  cs_closeResult : option error;
  cs_closed : bool
}.

Definition Send (msg : CreateSecretChunkRequest) (s : CreateSecretStreamClient)
    : option error * CreateSecretStreamClient :=
  match cs_sendResults s with
  | Some err :: results =>
      (Some err, {| cs_sent := cs_sent s; cs_sendResults := results;
                    cs_closeResult := cs_closeResult s; cs_closed := cs_closed s |})
  | None :: results =>
      (None, {| cs_sent := cs_sent s ++ [msg]; cs_sendResults := results;
                cs_closeResult := cs_closeResult s; cs_closed := cs_closed s |})
  | [] =>
      (None, {| cs_sent := cs_sent s ++ [msg]; cs_sendResults := [];
                cs_closeResult := cs_closeResult s; cs_closed := cs_closed s |})
  end.

Definition CloseAndRecv (s : CreateSecretStreamClient) : option error * CreateSecretStreamClient :=
  (cs_closeResult s,
   {| cs_sent := cs_sent s; cs_sendResults := cs_sendResults s;
      cs_closeResult := cs_closeResult s; cs_closed := true |}).

(** The client side of a download stream
    ([pb.SecretService_GetLatestSecretStreamClient]): the messages still to
    arrive, the status that ends the stream ([io.EOF] for a normal end) and
    the number of [Recv] calls made so far. *)
Record GetSecretStreamClient := mkGetSecretStreamClient {
  gs_incoming : list GetSecretChunkResponse;
  gs_status : error;
  gs_recvs : nat
}.

Definition Recv (s : GetSecretStreamClient) : (GetSecretChunkResponse + error) * GetSecretStreamClient :=
  match gs_incoming s with
  | [] => (inr (gs_status s),
           {| gs_incoming := []; gs_status := gs_status s; gs_recvs := S (gs_recvs s) |})
  | m :: rest => (inl m,
           {| gs_incoming := rest; gs_status := gs_status s; gs_recvs := S (gs_recvs s) |})
  end.

(** Package [internal/interfaces/grpc]. *)
Module grpc.

(* ===================================================================== *)
(** ** The download reader ([internal/interfaces/grpc/stream_reader.go]) *)
(* ===================================================================== *)

Record secretStreamReader := mkSecretStreamReader {
  stream : GetSecretStreamClient;
  buffer : list byte;
  index : nat
}.

Definition NewSecretStreamReader (stream : GetSecretStreamClient) : secretStreamReader :=
  {| stream := stream; buffer := []; index := 0 |}.

(** The type name printed by [%T] for the chunk of a message. *)
Definition chunkTypeName (m : GetSecretChunkResponse) : string :=
  match m with
  | GetSecretChunkResponse_Info _ => "*gen.GetSecretChunkResponse_Info"
  | GetSecretChunkResponse_Data _ => "*gen.GetSecretChunkResponse_Data"
  | GetSecretChunkResponse_unset => "<nil>"
  end.

(** [Read] with the stream taken apart, so that the self call after a
    receive is a call on the shorter list of messages to come. *)
Fixpoint Read_loop (incoming : list GetSecretChunkResponse) (status : error) (recvs : nat)
    (buffer : list byte) (index : nat) (size : nat)
    : (list byte * option error) * secretStreamReader :=
  if decide (index < length buffer) then
    let out := take size (drop index buffer) in
    ((out, None),
     {| stream := mkGetSecretStreamClient incoming status recvs;
        buffer := buffer; index := index + length out |})
  else
    match incoming with
    | [] =>
        let err := if errors_Is status io_EOF then io_EOF
                   else fmt_Errorf "stream read failed" status in
        (([], Some err),
         {| stream := mkGetSecretStreamClient [] status (S recvs);
            buffer := buffer; index := index |})
    | response :: rest =>
        match GetData response with
        | None =>
            (([], Some (errors_New ("expected data chunk, got " +:+ chunkTypeName response))),
             {| stream := mkGetSecretStreamClient rest status (S recvs);
                buffer := buffer; index := index |})
        | Some chunk => Read_loop rest status (S recvs) chunk 0 size
        end
    end.

(** [n, err := r.Read(p)] with [len(p) = size]: the result is
    [(p[:n], err)] and the reader after the call. *)
Definition Read (r : secretStreamReader) (size : nat)
    : (list byte * option error) * secretStreamReader :=
  Read_loop (gs_incoming (stream r)) (gs_status (stream r)) (gs_recvs (stream r))
            (buffer r) (index r) size.

(* ===================================================================== *)
(** ** The secret client ([internal/interfaces/grpc/secret.go]) *)
(* ===================================================================== *)

Definition chunkSize : nat := 1024 * 512.
#[global] Arguments chunkSize : simpl never.

(** What a call of each RPC takes and what it gives back; for a streaming
    RPC that is the stream. *)
Definition Req (m : Method) : Type :=
  match m with
  | M_CreateSecret => CreateSecretRequest
  | M_CreateSecretStream => unit
  | M_ListSecrets => unit
  | M_GetLatestSecret => string
  | M_GetLatestSecretStream => string
  | M_GetSecretByVersion => (string * Z)%type
  | M_GetSecretStreamByVersion => (string * Z)%type
  | M_DeleteSecret => string
  end.

Definition Reply (m : Method) : Type :=
  match m with
  | M_CreateSecret => unit
  | M_CreateSecretStream => CreateSecretStreamClient
  | M_ListSecrets => list string
  | M_GetLatestSecret => GetSecretResponse
  | M_GetLatestSecretStream => GetSecretStreamClient
  | M_GetSecretByVersion => GetSecretResponse
  | M_GetSecretStreamByVersion => GetSecretStreamClient
  | M_DeleteSecret => unit
  end.

(** What [CreateSecretStream] leaves behind: its error, the connection,
    the stream if one was opened, and the byte source. *)
Record Upload (W : Type) := mkUpload {
  up_err : option error;
  up_conn : W;
  up_stream : option CreateSecretStreamClient;
  up_reader : Reader
}.
Arguments mkUpload {W}.
Arguments up_err {W}.
Arguments up_conn {W}.
Arguments up_stream {W}.
Arguments up_reader {W}.

Section SecretClient.
Context {wire : PbSecretType} {T : Type} {tokens : TokenRepository T}.

(** The connection below the interceptors: it carries a call of method
    [m] to the backend and changes the connection state [W]. *)
Context {W : Type}.
Variable transport : forall m : Method, Context -> Req m -> W -> (Reply m + error) * W.

(** [SecretClient]: the connection was built with the interceptor of
    [NewSecretClient]. *)
Record SecretClient := mkSecretClient { authInterceptor : AuthInterceptor T }.

Definition NewSecretClient (repo : T) : SecretClient :=
  {| authInterceptor := NewAuthInterceptor repo |}.

(** Modelled from the spec: the generated stubs of [pb.SecretServiceClient]
    are not among the sources.  [NewSecretClient] installs the unary and
    the stream interceptor on the connection, so a stub is the matching
    interceptor run around the transport (section 4.1: the middleware
    wraps every outbound call); a server-streaming stub sends its one
    request as part of opening the stream. *)
Definition pb_unary (c : SecretClient) (m : Method) (ctx : Context) (req : Req m)
    (w : W) : (Reply m + error) * W :=
  UnaryInterceptor (authInterceptor c) ctx m req
    (fun ctx' _ req' => transport m ctx' req') w.

Definition pb_stream (c : SecretClient) (m : Method) (ctx : Context) (req : Req m)
    (w : W) : (Reply m + error) * W :=
  StreamInterceptor (authInterceptor c) ctx m
    (fun ctx' _ => transport m ctx' req) w.

Definition CreateSecret (c : SecretClient) (ctx : Context) (secret : Secret)
    (w : W) : option error * W :=
  match pb_unary c M_CreateSecret ctx
          {| csr_Info := mapDomainSecretInfoToProtoCreateSecretInfoRequest (Info secret);
             csr_Data := Data secret |} w with
  | (inr err, w) => (Some err, w)
  | (inl _, w) => (None, w)
  end.

Definition sendMetadataChunk (stream : CreateSecretStreamClient) (secret : Secret)
    : option error * CreateSecretStreamClient :=
  Send (CreateSecretChunkRequest_Info
          (mapDomainSecretInfoToProtoCreateSecretInfoRequest (Info secret))) stream.

(** The [for] loop of [sendDataChunks]; [fuel] bounds the number of
    reads and [None] means that it ran out. *)
Fixpoint sendDataChunks (fuel : nat) (stream : CreateSecretStreamClient) (reader : Reader)
    : option (option error * CreateSecretStreamClient * Reader) :=
  match fuel with
  | 0 => None
  | S fuel =>
      let '((chunk, err), reader) := Reader_Read reader chunkSize in
      match err with
      | Some err =>
          if errors_Is err io_EOF then Some (None, stream, reader)
          else Some (Some err, stream, reader)
      | None =>
          if decide (0 < length chunk) then
            match Send (CreateSecretChunkRequest_Data chunk) stream with
            | (Some err, stream) => Some (Some err, stream, reader)
            | (None, stream) => sendDataChunks fuel stream reader
            end
          else sendDataChunks fuel stream reader
      end
  end.

Definition CreateSecretStream (fuel : nat) (c : SecretClient) (ctx : Context)
    (secret : Secret) (reader : Reader) (w : W) : option (Upload W) :=
  match pb_stream c M_CreateSecretStream ctx () w with
  | (inr err, w) =>
      Some (mkUpload (Some (fmt_Errorf "client.CreateSecretStream" err)) w None reader)
  | (inl stream, w) =>
      match sendMetadataChunk stream secret with
      | (Some err, stream) =>
          Some (mkUpload (Some (fmt_Errorf "failed to send metadata chunk" err))
                         w (Some stream) reader)
      | (None, stream) =>
          match sendDataChunks fuel stream reader with
          | None => None
          | Some (Some err, stream, reader) =>
              Some (mkUpload (Some (fmt_Errorf "failed to send data chunks" err))
                             w (Some stream) reader)
          | Some (None, stream, reader) =>
              match CloseAndRecv stream with
              | (Some err, stream) =>
                  Some (mkUpload
                          (Some (fmt_Errorf "failed to close stream and recieve server's response" err))
                          w (Some stream) reader)
              | (None, stream) => Some (mkUpload None w (Some stream) reader)
              end
          end
      end
  end.

Definition ListSecrets (c : SecretClient) (ctx : Context) (w : W)
    : (list string + error) * W :=
  match pb_unary c M_ListSecrets ctx () w with
  | (inr err, w) => (inr (fmt_Errorf "client.ListSecrets" err), w)
  | (inl resp, w) => (inl resp, w)
  end.

Definition GetLatestSecret (c : SecretClient) (ctx : Context) (secretName : string)
    (w : W) : (Secret + error) * W :=
  match pb_unary c M_GetLatestSecret ctx secretName w with
  | (inr err, w) => (inr (fmt_Errorf "client.GetLatestSecret" err), w)
  | (inl resp, w) => (inl (mapProtoGetSecretResponseToDomainSecret resp), w)
  end.

Definition GetLatestSecretStream (c : SecretClient) (ctx : Context) (secretName : string)
    (w : W) : (secretStreamReader * SecretInfo + error) * W :=
  match pb_stream c M_GetLatestSecretStream ctx secretName w with
  | (inr err, w) => (inr (fmt_Errorf "client.GetLatestSecretStream" err), w)
  | (inl stream, w) =>
      match Recv stream with
      | (inr err, _) =>
          (inr (fmt_Errorf "failed to receive first chunk with metadata" err), w)
      | (inl firstChunk, stream) =>
          match GetInfo firstChunk with
          | None => (inr (errors_New "first chunk must contain secret info"), w)
          | Some secretInfo =>
              (inl (NewSecretStreamReader stream,
                    mapProtoGetSecretInfoResponseToDomainSecretInfo (Some secretInfo)), w)
          end
      end
  end.

Definition GetSecretByVersion (c : SecretClient) (ctx : Context) (secretName : string)
    (version : Z) (w : W) : (Secret + error) * W :=
  match pb_unary c M_GetSecretByVersion ctx (secretName, version) w with
  | (inr err, w) => (inr (fmt_Errorf "client.GetSecretByVersion" err), w)
  | (inl resp, w) => (inl (mapProtoGetSecretResponseToDomainSecret resp), w)
  end.

Definition GetSecretStreamByVersion (c : SecretClient) (ctx : Context)
    (secretName : string) (version : Z) (w : W)
    : (secretStreamReader * SecretInfo + error) * W :=
  match pb_stream c M_GetSecretStreamByVersion ctx (secretName, version) w with
  | (inr err, w) => (inr (fmt_Errorf "client.GetSecretStreamByVersion" err), w)
  | (inl stream, w) =>
      match Recv stream with
      | (inr err, _) => (inr (fmt_Errorf "failed to recieve metadata" err), w)
      | (inl firstChunk, stream) =>
          match GetInfo firstChunk with
          | None => (inr (errors_New "first chunk must contain secret info"), w)
          | Some secretInfo =>
              (inl (NewSecretStreamReader stream,
                    mapProtoGetSecretInfoResponseToDomainSecretInfo (Some secretInfo)), w)
          end
      end
  end.

Definition DeleteSecret (c : SecretClient) (ctx : Context) (secretName : string)
    (w : W) : option error * W :=
  match pb_unary c M_DeleteSecret ctx secretName w with
  | (inr err, w) => (Some (fmt_Errorf "client.DeleteSecret" err), w)
  | (inl _, w) => (None, w)
  end.

End SecretClient.

Arguments SecretClient T : clear implicits.

(* ===================================================================== *)
(** ** The authentication client ([internal/interfaces/grpc/auth.go]) *)
(* ===================================================================== *)

Section AuthClient.
(** The connection of the authentication client carries no interceptor;
    [pb_Register] and [pb_Login] are its two RPCs, answering with the
    token of the [AuthResponse]. *)
Context {A : Type}.
Variable pb_Register pb_Login :
  Context -> AuthRequest -> A -> (AuthResponse + error) * A.

Definition Register (ctx : Context) (login passsword : string) (a : A)
    : (string + error) * A :=
  match pb_Register ctx {| ar_Login := login; ar_Password := passsword |} a with
  | (inr err, a) =>
      match status_FromError err with
      | Some st =>
          match st with
          | codes_AlreadyExists => (inr ErrLoginAlreayExists, a)
          | _ => (inr (fmt_Errorf "registration failed" err), a)
          end
      | None =>
          (inr (fmt_Errorf "registration failed: can't parse gRPC response code" err), a)
      end
  | (inl resp, a) =>
      let token := Token resp in
      if decide (token = "") then (inr (errors_New "received empty token"), a)
      else (inl token, a)
  end.

Definition Login (ctx : Context) (login passsword : string) (a : A)
    : (string + error) * A :=
  match pb_Login ctx {| ar_Login := login; ar_Password := passsword |} a with
  | (inr err, a) =>
      match status_FromError err with
      | Some st =>
          match st with
          | codes_AlreadyExists => (inr ErrLoginAlreayExists, a)
          | codes_InvalidArgument => (inr ErrInvalidCredentials, a)
          | _ => (inr (fmt_Errorf "registration failed" err), a)
          end
      | None =>
          (inr (fmt_Errorf "registration failed: can't parse gRPC response code" err), a)
      end
  | (inl resp, a) =>
      let token := Token resp in
      if decide (token = "") then (inr (errors_New "received empty token"), a)
      else (inl token, a)
  end.

End AuthClient.

End grpc.

(* ===================================================================== *)
(** ** The application services ([internal/application]) *)
(* ===================================================================== *)

(** [domain.SecretClient], the two methods [CreateSecret] dispatches to,
    over a client state [C]. *)
Class domain_SecretClient (C : Type) := {
  client_CreateSecret : Context -> Secret -> C -> option error * C;
  client_CreateSecretStream : Context -> Secret -> Reader -> C -> option error * C
}.

(** [domain.AuthClient] over a client state [A]. *)
Class domain_AuthClient (A : Type) := {
  client_Register : Context -> string -> string -> A -> (string + error) * A;
  client_Login : Context -> string -> string -> A -> (string + error) * A
}.

Module application.

Section SecretService.
Context {C : Type} {client : domain_SecretClient C}.

Definition CreateSecret (ctx : Context) (secret : Secret) (contentReader : Reader)
    (c : C) : option error * C :=
  let type := Type_ (Info secret) in
  if decide (type = CredentialsSecretType \/ type = PaymentCardSecretType) then
    match io_ReadAll contentReader with
    | ((_, Some err), _) =>
        (Some (fmt_Errorf "application.CreateSecret: failed to read secret content" err), c)
    | ((secretData, None), _) =>
        let secret := {| Info := Info secret; Data := String.string_of_list_byte secretData |} in
        match client_CreateSecret ctx secret c with
        | (Some err, c) =>
            (Some (fmt_Errorf "application.CreateSecret: failed to create secret" err), c)
        | (None, c) => (None, c)
        end
    end
  else if decide (type = FileSecretType \/ type = TextSecretType) then
    match client_CreateSecretStream ctx secret contentReader c with
    | (Some err, c) =>
        (Some (fmt_Errorf "application.CreateSecret: failed to create stream secret" err), c)
    | (None, c) => (None, c)
    end
  else (None, c).

End SecretService.

Section AuthService.
Context {A T : Type} {client : domain_AuthClient A} {tokens : TokenRepository T}.

Definition Register (ctx : Context) (login passsword : string) (a : A) (t : T)
    : option error * A * T :=
  match client_Register ctx login passsword a with
  | (inr err, a) => (Some (fmt_Errorf "application.Register" err), a, t)
  | (inl jwtToken, a) =>
      match SaveToken jwtToken t with
      | (Some err, t) => (Some (fmt_Errorf "application.Register" err), a, t)
      | (None, t) => (None, a, t)
      end
  end.

Definition Login (ctx : Context) (login passsword : string) (a : A) (t : T)
    : option error * A * T :=
  match client_Login ctx login passsword a with
  | (inr err, a) => (Some (fmt_Errorf "application.Login" err), a, t)
  | (inl jwtToken, a) =>
      match SaveToken jwtToken t with
      | (Some err, t) => (Some (fmt_Errorf "application.Login" err), a, t)
      | (None, t) => (None, a, t)
      end
  end.

End AuthService.

End application.

(* ===================================================================== *)
(** ** Vocabulary of the properties *)
(* ===================================================================== *)

(** [ceil(n / k)] on natural numbers. *)
Definition ceil_div (n k : nat) : nat := (n + k - 1) / k.

(** One [Data] message per full or final part of each segment in which a
    source hands out its bytes. *)
Definition readsWithData (r : Reader) : nat :=
  sum_list ((fun seg => ceil_div (length seg) grpc.chunkSize) <$> pending r).


(** A backend that stored an upload sequence and streams it back message
    by message, adding the version and the creation time it assigned. *)
Definition replay (version createdAt : Z) (msgs : list CreateSecretChunkRequest)
    : list GetSecretChunkResponse :=
  (fun m => match m with
            | CreateSecretChunkRequest_Info info =>
                GetSecretChunkResponse_Info
                  {| gsi_Name := csi_Name info; gsi_Type := csi_Type info;
                     gsi_Metadata := csi_Metadata info;
                     gsi_Version := version; gsi_CreatedAt := createdAt |}
            | CreateSecretChunkRequest_Data data => GetSecretChunkResponse_Data data
            end) <$> msgs.

(** A caller that reads a download reader to its end, as [io.Copy] does:
    the [i]-th call asks for [sizes i] bytes, the fragments are
    concatenated, [io.EOF] ends the loop normally.  [None] means that
    [fuel] calls were not enough. *)
Fixpoint drain (fuel : nat) (sizes : nat -> nat) (i : nat) (r : grpc.secretStreamReader)
    : option (list byte * option error * grpc.secretStreamReader) :=
  match fuel with
  | 0 => None
  | S fuel =>
      let '((out, err), r) := grpc.Read r (sizes i) in
      match err with
      | Some err =>
          if errors_Is err io_EOF then Some (out, None, r) else Some (out, Some err, r)
      | None =>
          match drain fuel sizes (S i) r with
          | Some (rest, err, r) => Some (out ++ rest, err, r)
          | None => None
          end
      end
  end.

(** The number of [Data] messages with an empty payload at the front of
    the messages to come. *)
Fixpoint leadingEmptyData (msgs : list GetSecretChunkResponse) : nat :=
  match msgs with
  | GetSecretChunkResponse_Data [] :: rest => S (leadingEmptyData rest)
  | _ => 0
  end.

(** The number of reads that surely exhaust a byte source. *)
Definition readsBound (r : Reader) : nat := length (pending r) + length (content r).

(** The outbound operations of the secret client. *)
Inductive SecretOp :=
  | Op_CreateSecret (secret : Secret)
  | Op_CreateSecretStream (secret : Secret) (reader : Reader)
  | Op_ListSecrets
  | Op_GetLatestSecret (secretName : string)
  | Op_GetLatestSecretStream (secretName : string)
  | Op_GetSecretByVersion (secretName : string) (version : Z)
  | Op_GetSecretStreamByVersion (secretName : string) (version : Z)
  | Op_DeleteSecret (secretName : string).

Definition errorOf {A : Type} (res : A + error) : option error :=
  match res with inl _ => None | inr err => Some err end.

(** One operation run on a connection: its error and the connection
    afterwards ([None]: the upload ran out of [fuel]). *)
Definition runOp {wire : PbSecretType} {T : Type} {tokens : TokenRepository T} {W : Type}
    (transport : forall m : Method, Context -> grpc.Req m -> W -> (grpc.Reply m + error) * W)
    (fuel : nat) (c : grpc.SecretClient T) (ctx : Context) (op : SecretOp) (w : W)
    : option (option error * W) :=
  match op with
  | Op_CreateSecret secret => Some (grpc.CreateSecret transport c ctx secret w)
  | Op_CreateSecretStream secret reader =>
      (fun up => (grpc.up_err up, grpc.up_conn up)) <$>
        grpc.CreateSecretStream transport fuel c ctx secret reader w
  | Op_ListSecrets => Some (prod_map errorOf id (grpc.ListSecrets transport c ctx w))
  | Op_GetLatestSecret name =>
      Some (prod_map errorOf id (grpc.GetLatestSecret transport c ctx name w))
  | Op_GetLatestSecretStream name =>
      Some (prod_map errorOf id (grpc.GetLatestSecretStream transport c ctx name w))
  | Op_GetSecretByVersion name version =>
      Some (prod_map errorOf id (grpc.GetSecretByVersion transport c ctx name version w))
  | Op_GetSecretStreamByVersion name version =>
      Some (prod_map errorOf id (grpc.GetSecretStreamByVersion transport c ctx name version w))
  | Op_DeleteSecret name => Some (grpc.DeleteSecret transport c ctx name w)
  end.

Definition opReadsBound (op : SecretOp) : nat :=
  match op with
  | Op_CreateSecretStream _ reader => readsBound reader
  | _ => 0
  end.

(** The context a call leaves with when [token] is stored. *)
Definition withBearer (ctx : Context) (token : string) : Context :=
  {| deadline := deadline ctx;
     outgoing := Some {[ "authorization" := ["Bearer " +:+ token] ]} |}.

(* ===================================================================== *)
(** ** Fixtures: concrete collaborators *)
(* ===================================================================== *)

(** One possible numbering of the wire enumeration. *)
Definition wire0123 : PbSecretType :=
  {| SecretType_CREDENTIALS := 0; SecretType_PAYMENT_CARD := 1;
     SecretType_BINARY := 2; SecretType_TEXT := 3 |}.

(** The answers of a backend, and a connection that records every call it
    carries, with the context the call arrived with. *)
Record Backend := mkBackend {
  be_upload : CreateSecretStreamClient + error;
  be_download : GetSecretStreamClient + error;
  be_secret : GetSecretResponse + error;
  be_names : list string + error;
  be_ack : unit + error
}.

Definition Wire := list (Method * Context).

Definition recording (b : Backend) (m : Method)
    : Context -> grpc.Req m -> Wire -> (grpc.Reply m + error) * Wire :=
  fun ctx _ w =>
    (match m return grpc.Reply m + error with
     | M_CreateSecret => be_ack b
     | M_CreateSecretStream => be_upload b
     | M_ListSecrets => be_names b
     | M_GetLatestSecret => be_secret b
     | M_GetLatestSecretStream => be_download b
     | M_GetSecretByVersion => be_secret b
     | M_GetSecretStreamByVersion => be_download b
     | M_DeleteSecret => be_ack b
     end, w ++ [(m, ctx)]).

Definition freshUpload : CreateSecretStreamClient :=
  {| cs_sent := []; cs_sendResults := []; cs_closeResult := None; cs_closed := false |}.

Definition incomingStream (msgs : list GetSecretChunkResponse) : GetSecretStreamClient :=
  {| gs_incoming := msgs; gs_status := io_EOF; gs_recvs := 0 |}.

Definition quietBackend : Backend :=
  {| be_upload := inl freshUpload; be_download := inl (incomingStream []);
     be_secret := inl {| gsr_Info := None; gsr_Data := "" |};
     be_names := inl []; be_ack := inl () |}.

Definition loggedIn : TokenRepo :=
  {| tokenFile := Contents "jwt"; mkdirResult := None; writeResult := None |}.

Definition loggedOut : TokenRepo :=
  {| tokenFile := NotExist; mkdirResult := None; writeResult := None |}.

Definition background : Context := {| deadline := None; outgoing := None |}.

Definition textSecret : Secret :=
  {| Info := {| Name := "note"; Type_ := TextSecretType; Metadata := "";
                Version := 0; CreatedAt := 0 |};
     Data := "" |}.

(** A client that records the calls made through [domain.SecretClient]
    and answers them with fixed errors. *)
Inductive ClientCall :=
  | Call_CreateSecret (secret : Secret)
  | Call_CreateSecretStream (secret : Secret) (reader : Reader).

Record Recorder := mkRecorder {
  calls : list ClientCall;
  bufferedResult : option error;
  streamedResult : option error
}.

#[global] Instance Recorder_SecretClient : domain_SecretClient Recorder :=
  {| client_CreateSecret := fun _ secret c =>
       (bufferedResult c,
        {| calls := calls c ++ [Call_CreateSecret secret];
           bufferedResult := bufferedResult c; streamedResult := streamedResult c |});
     client_CreateSecretStream := fun _ secret reader c =>
       (streamedResult c,
        {| calls := calls c ++ [Call_CreateSecretStream secret reader];
           bufferedResult := bufferedResult c; streamedResult := streamedResult c |}) |}.

Definition dataOnly : Backend :=
  {| be_upload := inl freshUpload;
     be_download := inl (incomingStream [GetSecretChunkResponse_Data ["x"%byte]]);
     be_secret := inl {| gsr_Info := None; gsr_Data := "" |};
     be_names := inl []; be_ack := inl () |}.

Definition emptyThenData : grpc.secretStreamReader :=
  grpc.NewSecretStreamReader
    (incomingStream [GetSecretChunkResponse_Data []; GetSecretChunkResponse_Data ["x"%byte]]).

(** The interactive text input of [create-text]: every line typed is one
    write on the pipe, the line with a newline added. *)
Definition line (text : string) : list byte :=
  String.list_byte_of_string text ++ [Byte.x0a].

Definition twoLines : Reader := io_Pipe [line "line1"; line "line2"].

Definition recordingClient : grpc.SecretClient TokenRepo := grpc.NewSecretClient loggedIn.

(** The upload of the two lines by a logged-in client, and the number of
    [Data] messages an upload put on its stream. *)
Definition twoLinesUpload : option (grpc.Upload Wire) :=
  grpc.CreateSecretStream (wire := wire0123) (recording quietBackend) 20
    recordingClient background textSecret twoLines [].



Definition unknownSecret : Secret :=
  {| Info := {| Name := "n"; Type_ := "unknown"; Metadata := "";
                Version := 0; CreatedAt := 0 |};
     Data := "" |}.

Definition failingRecorder : Recorder :=
  {| calls := []; bufferedResult := Some io_EOF; streamedResult := Some io_EOF |}.

(** An authentication client whose backend gives a fixed answer to
    [Login], built on [grpc.Login]. *)
Record AuthBackend := mkAuthBackend {
  loginAnswer : AuthResponse + error;
  registerAnswer : AuthResponse + error;
  authCalls : nat
}.

Definition answerLogin (_ : Context) (_ : AuthRequest) (a : AuthBackend)
    : (AuthResponse + error) * AuthBackend :=
  (loginAnswer a, {| loginAnswer := loginAnswer a; registerAnswer := registerAnswer a;
                     authCalls := S (authCalls a) |}).

Definition answerRegister (_ : Context) (_ : AuthRequest) (a : AuthBackend)
    : (AuthResponse + error) * AuthBackend :=
  (registerAnswer a, {| loginAnswer := loginAnswer a; registerAnswer := registerAnswer a;
                        authCalls := S (authCalls a) |}).

Definition wrongPassword : AuthBackend :=
  {| loginAnswer := inr (status_Error codes_InvalidArgument "invalid credentials");
     registerAnswer := inr (status_Error codes_AlreadyExists "login taken");
     authCalls := 0 |}.

#[global] Instance grpc_AuthClient : domain_AuthClient AuthBackend :=
  {| client_Register := grpc.Register answerRegister;
     client_Login := grpc.Login answerLogin |}.

(* ===================================================================== *)
(** ** The authentication commands ([internal/presentation/cli]) *)
(* ===================================================================== *)

(** [domain.AuthService] over a service state [S]. *)
Class domain_AuthService (S : Type) := {
  service_Register : Context -> string -> string -> S -> option error * S;
  service_Login : Context -> string -> string -> S -> option error * S
}.

(** [application.AuthService] is one: its state is the authentication
    client together with the token store. *)
#[global] Instance application_AuthService {A T : Type}
    {client : domain_AuthClient A} {tokens : TokenRepository T}
    : domain_AuthService (A * T) :=
  {| service_Register := fun ctx login passsword s =>
       let '(err, a, t) := application.Register ctx login passsword s.1 s.2 in (err, (a, t));
     service_Login := fun ctx login passsword s =>
       let '(err, a, t) := application.Login ctx login passsword s.1 s.2 in (err, (a, t)) |}.

Module cli.

Section AuthCommands.
Context {S : Type} {authService : domain_AuthService S}.

(** The [RunE] of the command built by [newRegisterCmd]: the error the
    command ends with and the lines written to its output.  Logging is
    left out. *)
Definition newRegisterCmd (ctx : Context) (login password : string) (s : S)
    : (option error * list string) * S :=
  match service_Register ctx login password s with
  | (Some err, s) =>
      if errors_Is err ErrLoginAlreayExists then ((Some ErrLoginAlreayExists, []), s)
      else ((Some (errors_New "failed to register"), []), s)
  | (None, s) => ((None, ["Successfully registered user"]), s)
  end.

(** The [RunE] of the command built by [newLoginCmd]. *)
Definition newLoginCmd (ctx : Context) (login password : string) (s : S)
    : (option error * list string) * S :=
  match service_Login ctx login password s with
  | (Some err, s) =>
      if errors_Is err ErrInvalidCredentials then ((Some ErrInvalidCredentials, []), s)
      else if errors_Is err ErrUserNotFound then ((Some ErrUserNotFound, []), s)
      else ((Some (errors_New "failed to log in"), []), s)
  | (None, s) => ((None, ["Successfully logged in"]), s)
  end.

End AuthCommands.

End cli.

(* ===================================================================== *)
(** ** Further fixtures *)
(* ===================================================================== *)

(** A connection on which every call fails with the same error. *)
Definition failingTransport {W : Type} (err : error) (m : Method)
    : Context -> grpc.Req m -> W -> (grpc.Reply m + error) * W :=
  fun _ _ w => (inr err, w).

(** A backend that streams back, as version 1, what the upload of the two
    lines put on its stream. *)
Definition twoLinesSent : list CreateSecretChunkRequest :=
  from_option (fun up => from_option cs_sent [] (grpc.up_stream up)) [] twoLinesUpload.



Definition twoLinesStored : Backend :=
  {| be_upload := inl freshUpload;
     be_download := inl (incomingStream (replay 1 0 twoLinesSent));
     be_secret := inl {| gsr_Info := None; gsr_Data := "" |};
     be_names := inl []; be_ack := inl () |}.

(** A backend on whose upload stream the second [Send] fails. *)
Definition sendFailsAtSecond : Backend :=
  {| be_upload := inl {| cs_sent := [];
                         cs_sendResults := [None; Some (errors_New "broken pipe")];
                         cs_closeResult := None; cs_closed := false |};
     be_download := inl (incomingStream []);
     be_secret := inl {| gsr_Info := None; gsr_Data := "" |};
     be_names := inl []; be_ack := inl () |}.

(** An authentication backend that accepts the login. *)
Definition rightPassword : AuthBackend :=
  {| loginAnswer := inl {| Token := "jwt" |};
     registerAnswer := inr (status_Error codes_AlreadyExists "login taken");
     authCalls := 0 |}.

(** An authentication backend that does not know the user. *)
Definition unknownUser : AuthBackend :=
  {| loginAnswer := inr (status_Error codes_NotFound "user not found");
     registerAnswer := inr (status_Error codes_AlreadyExists "login taken");
     authCalls := 0 |}.

(* ===================================================================== *)
(** * Auxiliary facts *)
(* ===================================================================== *)

(** ** Errors and arithmetic *)

Lemma errors_Is_refl (err : error) : errors_Is err err = true.
Proof. destruct err; simpl; repeat case_decide; congruence. Qed.

Lemma errors_Is_wrap (prefix : string) (err target : error) :
  errors_Is err target = true -> errors_Is (fmt_Errorf prefix err) target = true.
Proof. intros Hin. simpl. case_decide; [reflexivity | exact Hin]. Qed.

Lemma chunkSize_pos : 0 < grpc.chunkSize.
Proof. unfold grpc.chunkSize. lia. Qed.

Lemma ceil_div_0 (k : nat) : 0 < k -> ceil_div 0 k = 0.
Proof. intros Hk. unfold ceil_div. apply Nat.div_small. lia. Qed.

Lemma ceil_div_le (n k : nat) : 0 < n -> n <= k -> ceil_div n k = 1.
Proof.
  intros Hn Hk. unfold ceil_div. symmetry.
  apply (Nat.div_unique _ _ 1 (n - 1)); lia.
Qed.

Lemma ceil_div_gt (n k : nat) : 0 < k -> k < n -> ceil_div n k = S (ceil_div (n - k) k).
Proof.
  intros Hk Hn. unfold ceil_div.
  replace (n + k - 1) with ((n - k + k - 1) + 1 * k) by lia.
  rewrite Nat.div_add by lia. lia.
Qed.



(* ===================================================================== *)
(** * Properties *)
(* ===================================================================== *)

(** ** Wire enumeration *)

(** C8.  The wire enumeration and the domain enumeration correspond one to
    one: CREDENTIALS, PAYMENT_CARD, BINARY and TEXT are the codes of
    credentials, payment_card, file and text; whenever the four wire values
    are distinct, decoding the code of each of the four domain types gives
    the type back, and encoding the decoding of each of the four wire
    values gives the value back; every other wire value decodes to the
    sentinel "unknown".  (The four values are distinct in any build: Go
    rejects a switch with two equal constant cases.) *)
Theorem secret_type_mapping_one_to_one (wire : PbSecretType) :
  NoDup [SecretType_CREDENTIALS; SecretType_PAYMENT_CARD;
         SecretType_BINARY; SecretType_TEXT] ->
  (mapDomainSecretTypeToProto CredentialsSecretType = SecretType_CREDENTIALS
   /\ mapDomainSecretTypeToProto PaymentCardSecretType = SecretType_PAYMENT_CARD
   /\ mapDomainSecretTypeToProto FileSecretType = SecretType_BINARY
   /\ mapDomainSecretTypeToProto TextSecretType = SecretType_TEXT)
  /\ (forall t : SecretType,
        t ∈ [CredentialsSecretType; PaymentCardSecretType; FileSecretType; TextSecretType] ->
        mapProtoSecretTypeToDomain (mapDomainSecretTypeToProto t) = t)
  /\ (forall v : Z,
        v ∈ [SecretType_CREDENTIALS; SecretType_PAYMENT_CARD;
             SecretType_BINARY; SecretType_TEXT] ->
        mapDomainSecretTypeToProto (mapProtoSecretTypeToDomain v) = v)
  /\ (forall v : Z,
        v ∉ [SecretType_CREDENTIALS; SecretType_PAYMENT_CARD;
             SecretType_BINARY; SecretType_TEXT] ->
        mapProtoSecretTypeToDomain v = "unknown").
Proof.
  intros Hnd.
  assert (Hneq : SecretType_CREDENTIALS <> SecretType_PAYMENT_CARD
                 /\ SecretType_CREDENTIALS <> SecretType_BINARY
                 /\ SecretType_CREDENTIALS <> SecretType_TEXT
                 /\ SecretType_PAYMENT_CARD <> SecretType_BINARY
                 /\ SecretType_PAYMENT_CARD <> SecretType_TEXT
                 /\ SecretType_BINARY <> SecretType_TEXT).
  { repeat match goal with
           | Hn : NoDup (_ :: _) |- _ => apply NoDup_cons in Hn; destruct Hn
           end.
    set_solver. }
  destruct Hneq as (? & ? & ? & ? & ? & ?).
  split; [repeat split; reflexivity|].
  split; [|split].
  - intros t Ht.
    repeat (apply elem_of_cons in Ht; destruct Ht as [->|Ht]);
      [..|by apply elem_of_nil in Ht];
      unfold mapDomainSecretTypeToProto, mapProtoSecretTypeToDomain; simpl;
      repeat case_decide; congruence.
  - intros v Hv.
    repeat (apply elem_of_cons in Hv; destruct Hv as [->|Hv]);
      [..|by apply elem_of_nil in Hv];
      unfold mapProtoSecretTypeToDomain;
      repeat case_decide; try congruence; reflexivity.
  - intros v Hv. unfold mapProtoSecretTypeToDomain.
    repeat case_decide; try reflexivity; subst; exfalso; apply Hv; set_solver.
Qed.

Lemma secret_type_mapping_witness :
  NoDup [0%Z; 1%Z; 2%Z; 3%Z]
  /\ mapProtoSecretTypeToDomain (wire := wire0123)
       (mapDomainSecretTypeToProto (wire := wire0123) FileSecretType) = FileSecretType
  /\ mapProtoSecretTypeToDomain (wire := wire0123) 7 = "unknown".
Proof.
  assert (Hnd : NoDup [0%Z; 1%Z; 2%Z; 3%Z]) by (apply (bool_decide_unpack _); vm_compute; exact I).
  split; [exact Hnd|].
  destruct (secret_type_mapping_one_to_one wire0123 Hnd) as (_ & Hback & _ & Hunk).
  split.
  - apply Hback. do 2 apply list_elem_of_further. apply list_elem_of_here.
  - apply Hunk. apply (bool_decide_unpack _). vm_compute. exact I.
Defined.

(** ** Dispatch in the secret service *)

(** C7.  A secret of type credentials or payment_card has its whole content
    read ([io.ReadAll]) and is then handed to the buffered [CreateSecret]
    of the client, once, with the content as its data (a failing read ends
    the call before any client call); a secret of type file or text is
    handed to [CreateSecretStream], once, with the byte source as it was
    received.  The recording client shows the calls made. *)
Theorem create_secret_dispatch :
  (forall (C : Type) (client : domain_SecretClient C) (ctx : Context)
          (secret : Secret) (contentReader : Reader) (c : C),
      let type := Type_ (Info secret) in
      (type = CredentialsSecretType \/ type = PaymentCardSecretType ->
       application.CreateSecret ctx secret contentReader c =
         match io_ReadAll contentReader with
         | ((_, Some err), _) =>
             (Some (fmt_Errorf "application.CreateSecret: failed to read secret content" err), c)
         | ((secretData, None), _) =>
             let '(err, c') :=
               client_CreateSecret ctx
                 {| Info := Info secret; Data := String.string_of_list_byte secretData |} c in
             (fmt_Errorf "application.CreateSecret: failed to create secret" <$> err, c')
         end)
      /\ (type = FileSecretType \/ type = TextSecretType ->
          application.CreateSecret ctx secret contentReader c =
            let '(err, c') := client_CreateSecretStream ctx secret contentReader c in
            (fmt_Errorf "application.CreateSecret: failed to create stream secret" <$> err, c')))
  /\ (forall (ctx : Context) (secret : Secret) (contentReader : Reader) (c : Recorder),
        let type := Type_ (Info secret) in
        (type = CredentialsSecretType \/ type = PaymentCardSecretType ->
         ending contentReader = io_EOF ->
         calls (application.CreateSecret ctx secret contentReader c).2 =
           calls c ++ [Call_CreateSecret
                         {| Info := Info secret;
                            Data := String.string_of_list_byte (content contentReader) |}])
        /\ (type = FileSecretType \/ type = TextSecretType ->
            calls (application.CreateSecret ctx secret contentReader c).2 =
              calls c ++ [Call_CreateSecretStream secret contentReader])).
Proof.
  assert (Hdisjoint : forall t : SecretType,
             t = FileSecretType \/ t = TextSecretType ->
             ~ (t = CredentialsSecretType \/ t = PaymentCardSecretType)).
  { intros t [-> | ->] [Heq | Heq]; discriminate Heq. }
  split.
  - intros C client ctx secret contentReader c type. subst type. split; intros Ht.
    + unfold application.CreateSecret. rewrite decide_True by exact Ht.
      destruct (io_ReadAll contentReader) as [[secretData [err|]] r]; [reflexivity|].
      destruct (client_CreateSecret _ _ _) as [[err|] c']; reflexivity.
    + unfold application.CreateSecret.
      rewrite decide_False by (apply Hdisjoint, Ht).
      rewrite decide_True by exact Ht.
      destruct (client_CreateSecretStream _ _ _ _) as [[err|] c']; reflexivity.
  - intros ctx secret contentReader c type. subst type. split.
    + intros Ht Hend. unfold application.CreateSecret. rewrite decide_True by exact Ht.
      unfold io_ReadAll. rewrite Hend. simpl.
      destruct (bufferedResult c); reflexivity.
    + intros Ht. unfold application.CreateSecret.
      rewrite decide_False by (apply Hdisjoint, Ht).
      rewrite decide_True by exact Ht. simpl.
      destruct (streamedResult c); reflexivity.
Qed.

(** C10.  For a secret whose type is none of the four named ones,
    [CreateSecret] returns [nil] and leaves the client as it was, whatever
    the client is: neither of its methods is called, and
    [ErrUnknownSecretType] is not reported. *)
Theorem create_secret_unknown_type_is_dropped :
  forall (C : Type) (client : domain_SecretClient C) (ctx : Context)
         (secret : Secret) (contentReader : Reader) (c : C),
    Type_ (Info secret) ∉ [CredentialsSecretType; PaymentCardSecretType;
                           FileSecretType; TextSecretType] ->
    application.CreateSecret ctx secret contentReader c = (None, c).
Proof.
  intros C client ctx secret contentReader c Ht.
  unfold application.CreateSecret.
  assert (Hno : forall t : SecretType,
             t ∈ [CredentialsSecretType; PaymentCardSecretType;
                  FileSecretType; TextSecretType] ->
             Type_ (Info secret) <> t).
  { intros t Hin Heq. apply Ht. rewrite Heq. exact Hin. }
  rewrite !decide_False.
  - reflexivity.
  - intros [Heq | Heq]; (eapply Hno; [|exact Heq]); set_solver.
  - intros [Heq | Heq]; (eapply Hno; [|exact Heq]); set_solver.
Qed.

Lemma create_secret_unknown_type_witness :
  (Type_ (Info unknownSecret) ∉ [CredentialsSecretType; PaymentCardSecretType;
                                 FileSecretType; TextSecretType])
  /\ application.CreateSecret background unknownSecret (bytes_NewReader []) failingRecorder
     = (None, failingRecorder).
Proof.
  assert (Ht : Type_ (Info unknownSecret) ∉ [CredentialsSecretType; PaymentCardSecretType;
                                             FileSecretType; TextSecretType]).
  { apply (bool_decide_unpack _). vm_compute. exact I. }
  split; [exact Ht|].
  exact (create_secret_unknown_type_is_dropped Recorder _ background unknownSecret
           (bytes_NewReader []) failingRecorder Ht).
Defined.

(** ** The upload codec *)

Lemma Send_spec (msg : CreateSecretChunkRequest) (s s' : CreateSecretStreamClient)
    (res : option error) :
  Send msg s = (res, s') ->
  cs_closeResult s' = cs_closeResult s
  /\ cs_closed s' = cs_closed s
  /\ match res with
     | None => cs_sent s' = cs_sent s ++ [msg]
     | Some _ => cs_sent s' = cs_sent s
     end.
Proof.
  unfold Send. destruct (cs_sendResults s) as [|[err|] results];
    intros [= <- <-]; simpl; auto.
Qed.

Lemma content_cons (seg : list byte) (rest : list (list byte)) (e : error) :
  content {| pending := seg :: rest; ending := e |}
  = seg ++ content {| pending := rest; ending := e |}.
Proof. reflexivity. Qed.

(** One read of a source that still holds a segment: the bytes handed out
    and the bytes left make up the bytes held before, and the read counts
    for one [Data] message exactly when it handed out a byte. *)
Lemma Reader_Read_content (seg : list byte) (rest : list (list byte)) (e : error) (size : nat) :
  take size seg
    ++ content {| pending := if decide (length seg <= size) then rest
                             else drop size seg :: rest;
                  ending := e |}
  = content {| pending := seg :: rest; ending := e |}.
Proof.
  destruct (decide (length seg <= size)).
  - rewrite take_ge by lia. reflexivity.
  - rewrite !content_cons, app_assoc, take_drop. reflexivity.
Qed.

Lemma readsWithData_cons (seg : list byte) (rest : list (list byte)) (e : error) :
  readsWithData {| pending := seg :: rest; ending := e |}
  = ceil_div (length seg) grpc.chunkSize + readsWithData {| pending := rest; ending := e |}.
Proof. reflexivity. Qed.

Lemma Reader_Read_count (seg : list byte) (rest : list (list byte)) (e : error) :
  readsWithData {| pending := seg :: rest; ending := e |}
  = (if decide (0 < length (take grpc.chunkSize seg)) then 1 else 0)
    + readsWithData {| pending := if decide (length seg <= grpc.chunkSize) then rest
                                  else drop grpc.chunkSize seg :: rest;
                       ending := e |}.
Proof.
  pose proof chunkSize_pos as Hk.
  rewrite readsWithData_cons, length_take.
  destruct (decide (length seg <= grpc.chunkSize)) as [Hle|Hgt].
  - destruct (decide (0 < grpc.chunkSize `min` length seg)) as [Hpos|Hzero].
    + rewrite ceil_div_le by lia. reflexivity.
    + replace (length seg) with 0 by lia. rewrite ceil_div_0 by lia. reflexivity.
  - rewrite decide_True by lia. rewrite readsWithData_cons, length_drop.
    rewrite (ceil_div_gt (length seg)) by lia. lia.
Qed.

(** What a run of the loop of [sendDataChunks] has done when it returns:
    it sent [Data] messages only, none of them empty or longer than
    [chunkSize]; when it returns [nil] the source ended with [io.EOF], and
    the payloads are the content of the source, cut segment by segment. *)
Lemma sendDataChunks_sound (fuel : nat) :
  forall (stream : CreateSecretStreamClient) (reader : Reader)
         (err : option error) (stream' : CreateSecretStreamClient) (reader' : Reader),
    grpc.sendDataChunks fuel stream reader = Some (err, stream', reader') ->
    exists chunks : list (list byte),
      cs_sent stream' = cs_sent stream ++ (CreateSecretChunkRequest_Data <$> chunks)
      /\ Forall (fun d => 0 < length d <= grpc.chunkSize) chunks
      /\ cs_closeResult stream' = cs_closeResult stream
      /\ (err = None ->
          concat chunks = content reader
          /\ length chunks = readsWithData reader
          /\ errors_Is (ending reader) io_EOF = true).
Proof.
  induction fuel as [|fuel IH]; intros stream reader err stream' reader' Hrun;
    [discriminate Hrun|].
  destruct reader as [segs e]. simpl in Hrun. unfold Reader_Read in Hrun. simpl in Hrun.
  destruct segs as [|seg rest].
  - (* the source is exhausted *)
    exists []. rewrite app_nil_r.
    destruct (errors_Is e io_EOF) eqn:Heof; injection Hrun as <- <- <-;
      repeat split; auto; discriminate.
  - pose proof (Reader_Read_content seg rest e grpc.chunkSize) as Hcut.
    pose proof (Reader_Read_count seg rest e) as Hcount.
    destruct (decide (0 < length (take grpc.chunkSize seg))) as [Hpos|Hzero].
    + destruct (Send _ stream) as [[serr|] stream1] eqn:Hsend;
        apply Send_spec in Hsend; destruct Hsend as (Hclose & _ & Hsent).
      * injection Hrun as <- <- <-. exists []. rewrite app_nil_r.
        repeat split; auto; discriminate.
      * apply IH in Hrun. destruct Hrun as (chunks & Hs & Hall & Hc & Hok).
        exists (take grpc.chunkSize seg :: chunks). split; [|split; [|split]].
        -- rewrite Hs, Hsent, <- app_assoc. reflexivity.
        -- constructor; [|exact Hall]. split; [exact Hpos|].
           rewrite length_take. lia.
        -- congruence.
        -- intros ->. destruct (Hok eq_refl) as (Hcat & Hlen & Heof).
           split; [|split].
           ++ simpl. rewrite Hcat. exact Hcut.
           ++ rewrite Hcount. simpl. rewrite Hlen. reflexivity.
           ++ exact Heof.
    + apply IH in Hrun. destruct Hrun as (chunks & Hs & Hall & Hc & Hok).
      exists chunks. split; [exact Hs|split; [exact Hall|split; [exact Hc|]]].
      intros ->. destruct (Hok eq_refl) as (Hcat & Hlen & Heof).
      assert (Hnil : take grpc.chunkSize seg = []) by (apply length_zero_iff_nil; lia).
      rewrite Hnil in Hcut. simpl in Hcut.
      split; [|split].
      * rewrite Hcat. exact Hcut.
      * rewrite Hcount. simpl. exact Hlen.
      * exact Heof.
Qed.

(** The loop returns as soon as the number of reads allowed exceeds the
    bound of the source. *)
Lemma sendDataChunks_total (fuel : nat) :
  forall (stream : CreateSecretStreamClient) (reader : Reader),
    readsBound reader < fuel ->
    is_Some (grpc.sendDataChunks fuel stream reader).
Proof.
  pose proof chunkSize_pos as Hk.
  induction fuel as [|fuel IH]; intros stream reader Hfuel; [lia|].
  destruct reader as [segs e]. simpl. unfold Reader_Read. simpl.
  destruct segs as [|seg rest].
  - destruct (errors_Is e io_EOF); eauto.
  - assert (Hless : readsBound {| pending := if decide (length seg <= grpc.chunkSize) then rest
                                             else drop grpc.chunkSize seg :: rest;
                                  ending := e |} < fuel).
    { unfold readsBound, content in *. simpl in *.
      rewrite length_app in Hfuel. case_decide; simpl.
      - lia.
      - rewrite length_app, length_drop. lia. }
    destruct (decide (0 < length (take grpc.chunkSize seg))).
    + destruct (Send _ stream) as [[serr|] stream1]; [eauto|]. apply IH, Hless.
    + apply IH, Hless.
Qed.

(** ** The download reader *)

(** [Read] as the source states it: serve the buffer, else receive once,
    refill and call [Read] again. *)
Lemma Read_eq (r : grpc.secretStreamReader) (size : nat) :
  grpc.Read r size =
    if decide (grpc.index r < length (grpc.buffer r)) then
      let out := take size (drop (grpc.index r) (grpc.buffer r)) in
      ((out, None),
       {| grpc.stream := grpc.stream r; grpc.buffer := grpc.buffer r;
          grpc.index := grpc.index r + length out |})
    else
      match Recv (grpc.stream r) with
      | (inr err, s) =>
          (([], Some (if errors_Is err io_EOF then io_EOF
                      else fmt_Errorf "stream read failed" err)),
           {| grpc.stream := s; grpc.buffer := grpc.buffer r; grpc.index := grpc.index r |})
      | (inl response, s) =>
          match GetData response with
          | None =>
              (([], Some (errors_New ("expected data chunk, got "
                                      +:+ grpc.chunkTypeName response))),
               {| grpc.stream := s; grpc.buffer := grpc.buffer r; grpc.index := grpc.index r |})
          | Some chunk =>
              grpc.Read {| grpc.stream := s; grpc.buffer := chunk; grpc.index := 0 |} size
          end
      end.
Proof.
  destruct r as [[incoming status recvs] buffer index].
  unfold grpc.Read, Recv. simpl.
  destruct incoming as [|response rest]; simpl.
  - destruct (decide (index < length buffer)); reflexivity.
  - destruct (decide (index < length buffer)); [reflexivity|].
    destruct (GetData response); reflexivity.
Qed.

Lemma Read_loop_length (incoming : list GetSecretChunkResponse) :
  forall (status : error) (recvs : nat) (buffer : list byte) (index size : nat),
    length (grpc.Read_loop incoming status recvs buffer index size).1.1 <= size.
Proof.
  induction incoming as [|response rest IH]; intros status recvs buffer index size; simpl.
  - destruct (decide (index < length buffer)); simpl; [|lia].
    rewrite length_take. lia.
  - destruct (decide (index < length buffer)); simpl.
    + rewrite length_take. lia.
    + destruct (GetData response); simpl; [apply IH|lia].
Qed.

Lemma Read_loop_recvs (incoming : list GetSecretChunkResponse) :
  forall (status : error) (recvs : nat) (buffer : list byte) (index size : nat),
    gs_recvs (grpc.stream (grpc.Read_loop incoming status recvs buffer index size).2)
    = if decide (index < length buffer) then recvs
      else recvs + S (leadingEmptyData incoming).
Proof.
  induction incoming as [|response rest IH]; intros status recvs buffer index size; simpl.
  - destruct (decide (index < length buffer)); simpl; lia.
  - destruct (decide (index < length buffer)); simpl; [reflexivity|].
    destruct response as [info|data|]; simpl; [lia| |lia].
    rewrite IH. destruct data as [|b data]; simpl; repeat case_decide; simpl in *; lia.
Qed.

Lemma drop_length_take {A : Type} (n : nat) (l : list A) :
  take n l ++ drop (length (take n l)) l = l.
Proof.
  rewrite length_take.
  destruct (Nat.min_spec n (length l)) as [[_ ->]|[Hle ->]].
  - apply take_drop.
  - rewrite take_ge, drop_all, app_nil_r by lia. reflexivity.
Qed.


(** ** The streamed upload as a whole *)


Section Upload.
Context {wire : PbSecretType} {T : Type} {tokens : TokenRepository T} {W : Type}.
Variable transport : forall m : Method, Context -> grpc.Req m -> W -> (grpc.Reply m + error) * W.

(** With enough reads allowed, [CreateSecretStream] returns; the connection
    it leaves is the one left by opening the stream. *)
Lemma CreateSecretStream_returns (fuel : nat) (c : grpc.SecretClient T) (ctx : Context)
    (secret : Secret) (reader : Reader) (w : W) :
  readsBound reader < fuel ->
  exists up : grpc.Upload W,
    grpc.CreateSecretStream transport fuel c ctx secret reader w = Some up
    /\ grpc.up_conn up = (grpc.pb_stream transport c M_CreateSecretStream ctx () w).2
    /\ (forall err,
          (grpc.pb_stream transport c M_CreateSecretStream ctx () w).1 = inr err ->
          grpc.up_err up = Some (fmt_Errorf "client.CreateSecretStream" err)).
Proof.
  intros Hfuel. unfold grpc.CreateSecretStream.
  destruct (grpc.pb_stream transport c M_CreateSecretStream ctx () w) as [[s0|err] w1]; simpl.
  - destruct (grpc.sendMetadataChunk s0 secret) as [[merr|] s1].
    + eexists. split; [reflexivity|]. split; [reflexivity|]. intros err [=].
    + destruct (sendDataChunks_total fuel s1 reader Hfuel) as [[[derr s2] r2] ->].
      destruct derr as [derr|].
      * eexists. split; [reflexivity|]. split; [reflexivity|]. intros err [=].
      * unfold CloseAndRecv. destruct (cs_closeResult s2) as [cerr|];
          (eexists; split; [reflexivity|]; split; [reflexivity|]; intros err [=]).
  - eexists. split; [reflexivity|]. split; [reflexivity|]. intros err' [= <-]. reflexivity.
Qed.

(** A successful [CreateSecretStream] opened a stream and put on it the
    [Info] message of the secret, then the content of the source as [Data]
    messages, none empty or longer than [chunkSize], one per part of each
    segment of the source. *)
Lemma CreateSecretStream_success (fuel : nat) (c : grpc.SecretClient T) (ctx : Context)
    (secret : Secret) (reader : Reader) (w : W) (up : grpc.Upload W) :
  grpc.CreateSecretStream transport fuel c ctx secret reader w = Some up ->
  grpc.up_err up = None ->
  exists (s0 sN : CreateSecretStreamClient) (chunks : list (list byte)),
    grpc.pb_stream transport c M_CreateSecretStream ctx () w = (inl s0, grpc.up_conn up)
    /\ grpc.up_stream up = Some sN
    /\ cs_sent sN = cs_sent s0
                    ++ CreateSecretChunkRequest_Info
                         (mapDomainSecretInfoToProtoCreateSecretInfoRequest (Info secret))
                       :: (CreateSecretChunkRequest_Data <$> chunks)
    /\ Forall (fun d => 0 < length d <= grpc.chunkSize) chunks
    /\ concat chunks = content reader
    /\ length chunks = readsWithData reader.
Proof.
  unfold grpc.CreateSecretStream.
  destruct (grpc.pb_stream transport c M_CreateSecretStream ctx () w) as [[s0|err] w1];
    [|intros [= <-]; discriminate].
  unfold grpc.sendMetadataChunk.
  destruct (Send _ s0) as [[merr|] s1] eqn:Hmeta; [intros [= <-]; discriminate|].
  apply Send_spec in Hmeta. destruct Hmeta as (_ & _ & Hs1).
  destruct (grpc.sendDataChunks fuel s1 reader) as [[[[derr|] s2] r2]|] eqn:Hdata;
    [intros [= <-]; discriminate| |discriminate].
  apply sendDataChunks_sound in Hdata.
  destruct Hdata as (chunks & Hs2 & Hall & _ & Hok).
  destruct (Hok eq_refl) as (Hcat & Hlen & _).
  unfold CloseAndRecv. destruct (cs_closeResult s2) as [cerr|];
    [intros [= <-]; discriminate|].
  intros [= <-] _. simpl.
  exists s0, {| cs_sent := cs_sent s2; cs_sendResults := cs_sendResults s2;
                cs_closeResult := None; cs_closed := true |}, chunks.
  repeat split; auto. simpl. rewrite Hs2, Hs1, <- app_assoc. reflexivity.
Qed.

End Upload.

(** ** The chunked transfer codec *)

(** C2.  Given enough reads, a streamed upload returns, and when it
    succeeds the messages it put on the stream are one [Info] message,
    made of the name, the type and the metadata of the secret and of
    nothing else, followed by [Data] messages only, none of them empty; a
    source without content gives the [Info] message alone. *)
Theorem upload_is_info_then_data :
  forall (P : PbSecretType) (T : Type) (R : TokenRepository T) (W : Type)
         (transport : forall m : Method, Context -> grpc.Req m -> W -> (grpc.Reply m + error) * W)
         (fuel : nat) (c : grpc.SecretClient T) (ctx : Context)
         (secret : Secret) (reader : Reader) (w : W),
    readsBound reader < fuel ->
    exists up : grpc.Upload W,
      grpc.CreateSecretStream transport fuel c ctx secret reader w = Some up
      /\ (grpc.up_err up = None ->
          exists (s0 sN : CreateSecretStreamClient) (datas : list (list byte)),
            grpc.pb_stream transport c M_CreateSecretStream ctx () w
              = (inl s0, grpc.up_conn up)
            /\ grpc.up_stream up = Some sN
            /\ cs_sent sN
               = cs_sent s0
                 ++ CreateSecretChunkRequest_Info
                      {| csi_Name := Name (Info secret);
                         csi_Type := mapDomainSecretTypeToProto (Type_ (Info secret));
                         csi_Metadata := Metadata (Info secret) |}
                    :: (CreateSecretChunkRequest_Data <$> datas)
            /\ Forall (fun d => d <> []) datas
            /\ (content reader = [] -> datas = [])).
Proof.
  intros P T R W transport fuel c ctx secret reader w Hfuel.
  destruct (CreateSecretStream_returns transport fuel c ctx secret reader w Hfuel)
    as (up & Hup & _).
  exists up. split; [exact Hup|]. intros Hok.
  destruct (CreateSecretStream_success transport fuel c ctx secret reader w up Hup Hok)
    as (s0 & sN & chunks & Hopen & Hstream & Hsent & Hall & Hcat & _).
  exists s0, sN, chunks. repeat split; auto.
  - eapply Forall_impl; [exact Hall|]. intros d [Hpos _] ->. simpl in Hpos. lia.
  - intros Hempty. rewrite Hempty in Hcat.
    destruct chunks as [|d chunks]; [reflexivity|].
    apply Forall_cons in Hall. destruct Hall as [[Hpos _] _].
    simpl in Hcat. apply app_eq_nil in Hcat. destruct Hcat as [-> _].
    simpl in Hpos. lia.
Qed.

Lemma upload_is_info_then_data_witness :
  readsBound twoLines < 20
  /\ grpc.up_err <$> twoLinesUpload = Some None
  /\ exists up : grpc.Upload Wire, twoLinesUpload = Some up.
Proof.
  assert (Hfuel : readsBound twoLines < 20) by (vm_compute; lia).
  split; [exact Hfuel|]. split; [vm_compute; reflexivity|].
  destruct (upload_is_info_then_data wire0123 TokenRepo _ Wire (recording quietBackend) 20
              recordingClient background textSecret twoLines [] Hfuel) as (up & Hup & _).
  exists up. exact Hup.
Defined.






(** ** The first message of a download *)

(** C4.  When the first message received on a download stream is not an
    [Info] message (a [Data] message, or a message without chunk), both
    [GetLatestSecretStream] and [GetSecretStreamByVersion] return the
    error "first chunk must contain secret info", the client's report of a
    broken framing, and no reader: nothing can be read by the caller. *)
Theorem download_first_message_must_be_info :
  forall (P : PbSecretType) (T : Type) (R : TokenRepository T) (W : Type)
         (transport : forall m : Method, Context -> grpc.Req m -> W -> (grpc.Reply m + error) * W)
         (c : grpc.SecretClient T) (ctx : Context) (secretName : string) (version : Z)
         (w w' : W) (s : GetSecretStreamClient)
         (first : GetSecretChunkResponse) (rest : list GetSecretChunkResponse),
    gs_incoming s = first :: rest ->
    GetInfo first = None ->
    (grpc.pb_stream transport c M_GetLatestSecretStream ctx secretName w = (inl s, w') ->
     grpc.GetLatestSecretStream transport c ctx secretName w
     = (inr (errors_New "first chunk must contain secret info"), w'))
    /\ (grpc.pb_stream transport c M_GetSecretStreamByVersion ctx (secretName, version) w
        = (inl s, w') ->
        grpc.GetSecretStreamByVersion transport c ctx secretName version w
        = (inr (errors_New "first chunk must contain secret info"), w')).
Proof.
  intros P T R W transport c ctx secretName version w w' s first rest Hin Hfirst.
  split; intros Hopen.
  - unfold grpc.GetLatestSecretStream. rewrite Hopen.
    unfold Recv. rewrite Hin, Hfirst. reflexivity.
  - unfold grpc.GetSecretStreamByVersion. rewrite Hopen.
    unfold Recv. rewrite Hin, Hfirst. reflexivity.
Qed.

Lemma download_first_message_witness :
  gs_incoming (incomingStream [GetSecretChunkResponse_Data ["x"%byte]])
  = [GetSecretChunkResponse_Data ["x"%byte]]
  /\ GetInfo (GetSecretChunkResponse_Data ["x"%byte]) = None
  /\ (grpc.GetLatestSecretStream (wire := wire0123) (recording dataOnly)
        recordingClient background "note" []).1
     = inr (errors_New "first chunk must contain secret info").
Proof.
  split; [reflexivity|]. split; [reflexivity|].
  destruct (download_first_message_must_be_info wire0123 TokenRepo _ Wire (recording dataOnly)
              recordingClient background "note" 0 []
              [(M_GetLatestSecretStream, withBearer background "jwt")]
              (incomingStream [GetSecretChunkResponse_Data ["x"%byte]])
              (GetSecretChunkResponse_Data ["x"%byte]) [] eq_refl eq_refl) as [Hlatest _].
  rewrite Hlatest; reflexivity.
Defined.

(** ** One call of the download reader *)

(** C5, as the reader behaves.  A call of [Read] never returns more bytes
    than were asked for.  It receives nothing while the buffer holds
    unread bytes; otherwise it receives once, and once more for every
    [Data] message with an empty payload that it meets before a message
    that ends the call.  So it receives at most once whenever no [Data]
    message to come is empty. *)
Theorem Read_bounded :
  forall (r : grpc.secretStreamReader) (size : nat),
    length (grpc.Read r size).1.1 <= size
    /\ gs_recvs (grpc.stream (grpc.Read r size).2)
       = (if decide (grpc.index r < length (grpc.buffer r))
          then gs_recvs (grpc.stream r)
          else gs_recvs (grpc.stream r)
               + S (leadingEmptyData (gs_incoming (grpc.stream r))))
    /\ ((forall m, m ∈ gs_incoming (grpc.stream r) -> GetData m <> Some []) ->
        gs_recvs (grpc.stream (grpc.Read r size).2) <= S (gs_recvs (grpc.stream r))).
Proof.
  intros r size. unfold grpc.Read.
  pose proof (Read_loop_recvs (gs_incoming (grpc.stream r)) (gs_status (grpc.stream r))
                (gs_recvs (grpc.stream r)) (grpc.buffer r) (grpc.index r) size) as Hrecvs.
  split; [apply Read_loop_length|]. split; [exact Hrecvs|].
  intros Hdata. rewrite Hrecvs.
  destruct (decide (grpc.index r < length (grpc.buffer r))); [lia|].
  destruct (gs_incoming (grpc.stream r)) as [|[info|[|b data]|] rest]; simpl; try lia.
  exfalso. apply (Hdata (GetSecretChunkResponse_Data [])); [|reflexivity].
  apply list_elem_of_here.
Qed.

Lemma Read_bounded_witness :
  (forall m, m ∈ [GetSecretChunkResponse_Data ["x"%byte]] -> GetData m <> Some [])
  /\ gs_recvs (grpc.stream
                 (grpc.Read (grpc.NewSecretStreamReader
                               (incomingStream [GetSecretChunkResponse_Data ["x"%byte]])) 1).2)
     <= 1.
Proof.
  assert (Hdata : forall m, m ∈ [GetSecretChunkResponse_Data ["x"%byte]] ->
                            GetData m <> Some []).
  { intros m Hm. apply list_elem_of_singleton in Hm. subst m. discriminate. }
  split; [exact Hdata|].
  exact (proj2 (proj2 (Read_bounded
                         (grpc.NewSecretStreamReader
                            (incomingStream [GetSecretChunkResponse_Data ["x"%byte]])) 1))
               Hdata).
Defined.

(** C5 as stated fails when the backend sends a [Data] message with an
    empty payload: the call that meets it receives a second time. *)
Lemma Read_receives_twice_counterexample :
  gs_recvs (grpc.stream emptyThenData) = 0
  /\ (grpc.Read emptyThenData 1).1 = (["x"%byte], None)
  /\ gs_recvs (grpc.stream (grpc.Read emptyThenData 1).2) = 2
  /\ ~ gs_recvs (grpc.stream (grpc.Read emptyThenData 1).2)
       <= S (gs_recvs (grpc.stream emptyThenData)).
Proof.
  split; [reflexivity|]. split; [reflexivity|]. split; [reflexivity|].
  vm_compute. lia.
Qed.

(** ** Authentication of outbound calls *)

Lemma injectAuthMetadata_token {T : Type} {tokens : TokenRepository T}
    (i : AuthInterceptor T) (ctx : Context) (token : string) :
  GetToken (repo i) = inl token ->
  injectAuthMetadata i ctx = inl (withBearer ctx token).
Proof. intros Htoken. unfold injectAuthMetadata. rewrite Htoken. reflexivity. Qed.

Lemma injectAuthMetadata_error {T : Type} {tokens : TokenRepository T}
    (i : AuthInterceptor T) (ctx : Context) (err : error) :
  GetToken (repo i) = inr err ->
  injectAuthMetadata i ctx = inr (fmt_Errorf "failed to get token" err).
Proof. intros Htoken. unfold injectAuthMetadata. rewrite Htoken. reflexivity. Qed.

(** C6.  When the token store answers [GetToken] with an error (for no
    stored token: [ErrTokenNotFound], the client's "no credential"
    error), both interceptors return that error, wrapped, and hand the
    connection back untouched whatever the invoker or streamer is: it is
    not called; so every operation of the secret client fails with an
    error that [errors.Is] the store's, and the connection has carried
    nothing.  When the store holds a token, both interceptors call the
    invoker or streamer with the context whose outgoing metadata is the one
    entry authorization: Bearer <token>, and every operation of the secret
    client makes one call on a recording connection, carrying that entry. *)
Theorem auth_interceptor_guards_every_call :
  forall (T : Type) (R : TokenRepository T) (c : grpc.SecretClient T) (ctx : Context),
    let i := grpc.authInterceptor c in
    (forall err : error,
        GetToken (repo i) = inr err ->
        (forall (Req Reply W : Type) (m : Method) (req : Req)
                (invoker : Context -> Method -> Req -> W -> (Reply + error) * W) (w : W),
            UnaryInterceptor i ctx m req invoker w
            = (inr (fmt_Errorf "failed to get token" err), w))
        /\ (forall (Stream W : Type) (m : Method)
                   (streamer : Context -> Method -> W -> (Stream + error) * W) (w : W),
              StreamInterceptor i ctx m streamer w
              = (inr (fmt_Errorf "failed to get token" err), w))
        /\ (forall (P : PbSecretType) (W : Type)
                   (transport : forall m : Method,
                       Context -> grpc.Req m -> W -> (grpc.Reply m + error) * W)
                   (fuel : nat) (op : SecretOp) (w : W),
              exists e : error,
                runOp transport fuel c ctx op w = Some (Some e, w)
                /\ errors_Is e err = true))
    /\ (forall token : string,
          GetToken (repo i) = inl token ->
          (forall (Req Reply W : Type) (m : Method) (req : Req)
                  (invoker : Context -> Method -> Req -> W -> (Reply + error) * W) (w : W),
              UnaryInterceptor i ctx m req invoker w
              = invoker (withBearer ctx token) m req w)
          /\ (forall (Stream W : Type) (m : Method)
                     (streamer : Context -> Method -> W -> (Stream + error) * W) (w : W),
                StreamInterceptor i ctx m streamer w
                = streamer (withBearer ctx token) m w)
          /\ outgoing (withBearer ctx token) = Some {[ "authorization" := ["Bearer " +:+ token] ]}
          /\ (forall (P : PbSecretType) (b : Backend) (fuel : nat) (op : SecretOp) (w : Wire),
                opReadsBound op < fuel ->
                exists (res : option error) (m : Method),
                  runOp (recording b) fuel c ctx op w
                  = Some (res, w ++ [(m, withBearer ctx token)]))).
Proof.
  intros T R c ctx i. split.
  - intros err Herr.
    pose proof (injectAuthMetadata_error i ctx err Herr) as Hinject.
    assert (Hunary : forall (Req Reply W : Type) (m : Method) (req : Req)
                (invoker : Context -> Method -> Req -> W -> (Reply + error) * W) (w : W),
              UnaryInterceptor i ctx m req invoker w
              = (inr (fmt_Errorf "failed to get token" err), w)).
    { intros. unfold UnaryInterceptor. rewrite Hinject. reflexivity. }
    assert (Hstream : forall (Stream W : Type) (m : Method)
                (streamer : Context -> Method -> W -> (Stream + error) * W) (w : W),
              StreamInterceptor i ctx m streamer w
              = (inr (fmt_Errorf "failed to get token" err), w)).
    { intros. unfold StreamInterceptor. rewrite Hinject. reflexivity. }
    split; [exact Hunary|]. split; [exact Hstream|].
    intros P W transport fuel op w.
    destruct op; simpl;
      unfold grpc.CreateSecret, grpc.CreateSecretStream, grpc.ListSecrets,
        grpc.GetLatestSecret, grpc.GetLatestSecretStream, grpc.GetSecretByVersion,
        grpc.GetSecretStreamByVersion, grpc.DeleteSecret, grpc.pb_unary, grpc.pb_stream;
      fold i; rewrite ?Hunary, ?Hstream; simpl;
      (eexists; split; [reflexivity|]);
      repeat apply errors_Is_wrap; apply errors_Is_refl.
  - intros token Htoken.
    pose proof (injectAuthMetadata_token i ctx token Htoken) as Hinject.
    assert (Hunary : forall (Req Reply W : Type) (m : Method) (req : Req)
                (invoker : Context -> Method -> Req -> W -> (Reply + error) * W) (w : W),
              UnaryInterceptor i ctx m req invoker w
              = invoker (withBearer ctx token) m req w).
    { intros. unfold UnaryInterceptor. rewrite Hinject. reflexivity. }
    assert (Hstream : forall (Stream W : Type) (m : Method)
                (streamer : Context -> Method -> W -> (Stream + error) * W) (w : W),
              StreamInterceptor i ctx m streamer w
              = streamer (withBearer ctx token) m w).
    { intros. unfold StreamInterceptor. rewrite Hinject. reflexivity. }
    split; [exact Hunary|]. split; [exact Hstream|]. split; [reflexivity|].
    intros P b fuel op w Hfuel.
    destruct op as [secret|secret reader| | | | | |]; simpl.
    + unfold grpc.CreateSecret, grpc.pb_unary. fold i. rewrite Hunary. simpl.
      destruct (be_ack b); eauto.
    + simpl in Hfuel.
      destruct (CreateSecretStream_returns (recording b) fuel c ctx secret reader w Hfuel)
        as (up & -> & Hconn & _).
      simpl. rewrite Hconn. unfold grpc.pb_stream. fold i. rewrite Hstream. simpl. eauto.
    + unfold grpc.ListSecrets, grpc.pb_unary. fold i. rewrite Hunary. simpl.
      destruct (be_names b); simpl; eauto.
    + unfold grpc.GetLatestSecret, grpc.pb_unary. fold i. rewrite Hunary. simpl.
      destruct (be_secret b); simpl; eauto.
    + unfold grpc.GetLatestSecretStream, grpc.pb_stream. fold i. rewrite Hstream. simpl.
      destruct (be_download b) as [s|e]; simpl; [|eauto].
      destruct (Recv s) as [[first|e] s']; simpl; [|eauto].
      destruct (GetInfo first); simpl; eauto.
    + unfold grpc.GetSecretByVersion, grpc.pb_unary. fold i. rewrite Hunary. simpl.
      destruct (be_secret b); simpl; eauto.
    + unfold grpc.GetSecretStreamByVersion, grpc.pb_stream. fold i. rewrite Hstream. simpl.
      destruct (be_download b) as [s|e]; simpl; [|eauto].
      destruct (Recv s) as [[first|e] s']; simpl; [|eauto].
      destruct (GetInfo first); simpl; eauto.
    + unfold grpc.DeleteSecret, grpc.pb_unary. fold i. rewrite Hunary. simpl.
      destruct (be_ack b); eauto.
Qed.

Lemma auth_interceptor_witness :
  GetToken (repo (grpc.authInterceptor (grpc.NewSecretClient loggedOut))) = inr ErrTokenNotFound
  /\ runOp (wire := wire0123) (recording quietBackend) 20 (grpc.NewSecretClient loggedOut)
       background (Op_CreateSecretStream textSecret twoLines) []
     = Some (Some (fmt_Errorf "client.CreateSecretStream"
                     (fmt_Errorf "failed to get token" ErrTokenNotFound)), []).
Proof.
  split; [reflexivity|].
  destruct (auth_interceptor_guards_every_call TokenRepo _ (grpc.NewSecretClient loggedOut)
              background) as [Hout _].
  destruct (Hout ErrTokenNotFound eq_refl) as (_ & _ & Hops).
  destruct (Hops wire0123 Wire (recording quietBackend) 20
              (Op_CreateSecretStream textSecret twoLines) []) as (e & He & _).
  assert (Heval : runOp (wire := wire0123) (recording quietBackend) 20
                    (grpc.NewSecretClient loggedOut) background
                    (Op_CreateSecretStream textSecret twoLines) []
                  = Some (Some (fmt_Errorf "client.CreateSecretStream"
                                  (fmt_Errorf "failed to get token" ErrTokenNotFound)), []))
    by reflexivity.
  rewrite He in Heval. rewrite He. exact Heval.
Defined.

(** ** Login *)

(** C9.  When the authentication client answers [Login] with an error,
    [AuthService.Login] returns that error, wrapped, and the token store
    is the one it was given, whatever its [SaveToken] does: the token is
    not saved.  The gRPC authentication client answers with an error
    whenever the backend does, whatever the status code (InvalidArgument,
    NotFound or any other), so a login the backend refuses leaves the
    store as it was. *)
Theorem failed_login_saves_no_token :
  (forall (A T : Type) (client : domain_AuthClient A) (tokens : TokenRepository T)
          (ctx : Context) (login password : string) (a a' : A) (t : T) (err : error),
      client_Login ctx login password a = (inr err, a') ->
      application.Login ctx login password a t
      = (Some (fmt_Errorf "application.Login" err), a', t))
  /\ (forall (A : Type)
             (pb_Login : Context -> AuthRequest -> A -> (AuthResponse + error) * A)
             (ctx : Context) (login password : string) (a a' : A) (err : error),
        pb_Login ctx {| ar_Login := login; ar_Password := password |} a = (inr err, a') ->
        exists err' : error, grpc.Login pb_Login ctx login password a = (inr err', a'))
  /\ (forall (T : Type) (tokens : TokenRepository T) (ctx : Context)
             (login password : string) (a : AuthBackend) (t : T) (err : error),
        loginAnswer a = inr err ->
        exists (err' : error) (a' : AuthBackend),
          application.Login ctx login password a t = (Some err', a', t)).
Proof.
  assert (Hservice : forall (A T : Type) (client : domain_AuthClient A)
                            (tokens : TokenRepository T) (ctx : Context)
                            (login password : string) (a a' : A) (t : T) (err : error),
             client_Login ctx login password a = (inr err, a') ->
             application.Login ctx login password a t
             = (Some (fmt_Errorf "application.Login" err), a', t)).
  { intros A T client tokens ctx login password a a' t err Hlogin.
    unfold application.Login. rewrite Hlogin. reflexivity. }
  assert (Hclient : forall (A : Type)
                           (pb_Login : Context -> AuthRequest -> A -> (AuthResponse + error) * A)
                           (ctx : Context) (login password : string) (a a' : A) (err : error),
             pb_Login ctx {| ar_Login := login; ar_Password := password |} a = (inr err, a') ->
             exists err' : error, grpc.Login pb_Login ctx login password a = (inr err', a')).
  { intros A pb_Login ctx login password a a' err Hpb.
    unfold grpc.Login. rewrite Hpb.
    destruct (status_FromError err) as [[]|]; eauto. }
  split; [exact Hservice|]. split; [exact Hclient|].
  intros T tokens ctx login password a t err Hanswer.
  destruct (Hclient AuthBackend answerLogin ctx login password a
              {| loginAnswer := loginAnswer a; registerAnswer := registerAnswer a;
                 authCalls := S (authCalls a) |} err) as [err' Herr'].
  { unfold answerLogin. rewrite Hanswer. reflexivity. }
  eexists (fmt_Errorf "application.Login" err'), _.
  apply Hservice. exact Herr'.
Qed.

Lemma failed_login_witness :
  loginAnswer wrongPassword = inr (status_Error codes_InvalidArgument "invalid credentials")
  /\ application.Login background "user" "wrong" wrongPassword loggedOut
     = (Some (fmt_Errorf "application.Login" ErrInvalidCredentials),
        {| loginAnswer := loginAnswer wrongPassword;
           registerAnswer := registerAnswer wrongPassword; authCalls := 1 |},
        loggedOut).
Proof.
  split; [reflexivity|].
  destruct failed_login_saves_no_token as (_ & _ & Hlogin).
  destruct (Hlogin TokenRepo _ background "user" "wrong" wrongPassword loggedOut
              (status_Error codes_InvalidArgument "invalid credentials") eq_refl)
    as (err' & a' & Hrun).
  rewrite Hrun.
  assert (Heval : application.Login background "user" "wrong" wrongPassword loggedOut
                  = (Some (fmt_Errorf "application.Login" ErrInvalidCredentials),
                     {| loginAnswer := loginAnswer wrongPassword;
                        registerAnswer := registerAnswer wrongPassword; authCalls := 1 |},
                     loggedOut)) by reflexivity.
  rewrite Hrun in Heval. exact Heval.
Defined.

Lemma create_secret_dispatch_witness :
  (Type_ (Info textSecret) = FileSecretType \/ Type_ (Info textSecret) = TextSecretType)
  /\ calls (application.CreateSecret background textSecret twoLines failingRecorder).2
     = [Call_CreateSecretStream textSecret twoLines].
Proof.
  assert (Htype : Type_ (Info textSecret) = FileSecretType
                  \/ Type_ (Info textSecret) = TextSecretType) by (right; reflexivity).
  split; [exact Htype|].
  destruct create_secret_dispatch as [_ Hrecorder].
  exact (proj2 (Hrecorder background textSecret twoLines failingRecorder) Htype).
Defined.

(* ===================================================================== *)
(** * Further properties of the client *)
(* ===================================================================== *)

(** ** The token store *)

Lemma string_length_0 (s : string) : String.length s = 0 <-> s = "".
Proof. destruct s; simpl; split; intros Heq; (reflexivity || discriminate Heq). Qed.

(** X1.  A token that [SaveToken] accepted is the one [GetToken] returns
    afterwards, whatever the file held before; a token is accepted only if
    it is not empty. *)
Theorem token_store_roundtrip :
  forall (token : string) (r r' : TokenRepo),
    SaveToken token r = (None, r') ->
    GetToken r' = inl token /\ token <> "".
Proof.
  intros token r r'. simpl. unfold TokenRepo_SaveToken, TokenRepo_GetToken.
  destruct (decide (token = "")) as [Hempty|Hfull]; [discriminate|].
  destruct (mkdirResult r); [discriminate|].
  destruct (writeResult r); [discriminate|].
  intros [= <-]. simpl. split; [|exact Hfull].
  rewrite decide_False; [reflexivity|]. rewrite string_length_0. exact Hfull.
Qed.

Lemma token_store_roundtrip_witness :
  SaveToken "jwt2" loggedIn
  = (None, {| tokenFile := Contents "jwt2"; mkdirResult := None; writeResult := None |})
  /\ GetToken {| tokenFile := Contents "jwt2"; mkdirResult := None; writeResult := None |}
     = inl "jwt2".
Proof.
  assert (Hsave : SaveToken "jwt2" loggedIn
                  = (None, {| tokenFile := Contents "jwt2"; mkdirResult := None;
                              writeResult := None |})) by reflexivity.
  split; [exact Hsave|].
  exact (proj1 (token_store_roundtrip "jwt2" loggedIn _ Hsave)).
Defined.

(** X2.  The store never yields an empty token: [GetToken] answers an
    empty token file with [ErrTokenNotFound], as it answers a missing
    file, so a token it returns is not empty; and [SaveToken] refuses the
    empty token before it touches the disk. *)
Theorem token_store_has_no_empty_token :
  forall r : TokenRepo,
    (forall token : string, GetToken r = inl token -> token <> "")
    /\ (tokenFile r = Contents "" \/ tokenFile r = NotExist ->
        GetToken r = inr ErrTokenNotFound)
    /\ SaveToken "" r = (Some (errors_New "cannot save empty token"), r).
Proof.
  intros r. simpl. unfold TokenRepo_GetToken, TokenRepo_SaveToken.
  split; [|split].
  - intros token. destruct (tokenFile r) as [|err|data]; try discriminate.
    destruct (decide (String.length data = 0)) as [Hzero|Hpos]; [discriminate|].
    intros [= <-] Hempty. apply Hpos. rewrite Hempty. reflexivity.
  - intros [-> | ->]; reflexivity.
  - reflexivity.
Qed.

Lemma token_store_has_no_empty_token_witness :
  GetToken loggedIn = inl "jwt" /\ "jwt" <> ""
  /\ GetToken {| tokenFile := Contents ""; mkdirResult := None; writeResult := None |}
     = inr ErrTokenNotFound.
Proof.
  assert (Hget : GetToken loggedIn = inl "jwt") by reflexivity.
  split; [exact Hget|]. split.
  - exact (proj1 (token_store_has_no_empty_token loggedIn) "jwt" Hget).
  - exact (proj1 (proj2 (token_store_has_no_empty_token
                           {| tokenFile := Contents ""; mkdirResult := None;
                              writeResult := None |})) (or_introl eq_refl)).
Defined.

(** ** The authentication client and the commands on it *)

(** X3.  [Register] and [Login] of the gRPC authentication client never
    hand out an empty token: a token they return is the non-empty token of
    the backend's response, and a response with an empty token is
    reported as the error "received empty token". *)
Theorem auth_client_token_not_empty :
  forall (A : Type) (pb_Register pb_Login : Context -> AuthRequest -> A -> (AuthResponse + error) * A)
         (ctx : Context) (login password : string) (a a' : A),
    (forall token : string,
        grpc.Login pb_Login ctx login password a = (inl token, a') ->
        token <> ""
        /\ pb_Login ctx {| ar_Login := login; ar_Password := password |} a
           = (inl {| Token := token |}, a'))
    /\ (forall token : string,
          grpc.Register pb_Register ctx login password a = (inl token, a') ->
          token <> ""
          /\ pb_Register ctx {| ar_Login := login; ar_Password := password |} a
             = (inl {| Token := token |}, a'))
    /\ (pb_Login ctx {| ar_Login := login; ar_Password := password |} a
        = (inl {| Token := "" |}, a') ->
        grpc.Login pb_Login ctx login password a
        = (inr (errors_New "received empty token"), a'))
    /\ (pb_Register ctx {| ar_Login := login; ar_Password := password |} a
        = (inl {| Token := "" |}, a') ->
        grpc.Register pb_Register ctx login password a
        = (inr (errors_New "received empty token"), a')).
Proof.
  intros A pb_Register pb_Login ctx login password a a'.
  unfold grpc.Login, grpc.Register.
  split; [|split; [|split]].
  - intros token.
    destruct (pb_Login _ _ a) as [[[tok]|err] a1].
    + simpl. destruct (decide (tok = "")); intros [= <- <-]; auto.
    + destruct (status_FromError err) as [[]|]; discriminate.
  - intros token.
    destruct (pb_Register _ _ a) as [[[tok]|err] a1].
    + simpl. destruct (decide (tok = "")); intros [= <- <-]; auto.
    + destruct (status_FromError err) as [[]|]; discriminate.
  - intros ->. reflexivity.
  - intros ->. reflexivity.
Qed.

Lemma auth_client_token_not_empty_witness :
  grpc.Login answerLogin background "user" "right" rightPassword
  = (inl "jwt", {| loginAnswer := loginAnswer rightPassword;
                   registerAnswer := registerAnswer rightPassword; authCalls := 1 |})
  /\ "jwt" <> "".
Proof.
  assert (Hlogin : grpc.Login answerLogin background "user" "right" rightPassword
                   = (inl "jwt", {| loginAnswer := loginAnswer rightPassword;
                                    registerAnswer := registerAnswer rightPassword;
                                    authCalls := 1 |})) by reflexivity.
  split; [exact Hlogin|].
  exact (proj1 (proj1 (auth_client_token_not_empty AuthBackend answerRegister answerLogin
                         background "user" "right" rightPassword _) "jwt" Hlogin)).
Defined.

(** With a token in the store, every operation of the secret client makes
    one call on a recording connection, carrying the token. *)
Lemma runOp_recording_bearer {T : Type} {tokens : TokenRepository T}
    (wire : PbSecretType) (c : grpc.SecretClient T) (ctx : Context) (token : string)
    (b : Backend) (fuel : nat) (op : SecretOp) (w : Wire) :
  GetToken (repo (grpc.authInterceptor c)) = inl token ->
  opReadsBound op < fuel ->
  exists (res : option error) (m : Method),
    runOp (recording b) fuel c ctx op w = Some (res, w ++ [(m, withBearer ctx token)]).
Proof.
  intros Htoken Hfuel.
  pose proof (injectAuthMetadata_token (grpc.authInterceptor c) ctx token Htoken) as Hinject.
  destruct op as [secret|secret reader| | | | | |]; simpl.
  - unfold grpc.CreateSecret, grpc.pb_unary, UnaryInterceptor. rewrite Hinject. simpl.
    destruct (be_ack b); eauto.
  - simpl in Hfuel.
    destruct (CreateSecretStream_returns (recording b) fuel c ctx secret reader w Hfuel)
      as (up & -> & Hconn & _).
    simpl. rewrite Hconn. unfold grpc.pb_stream, StreamInterceptor. rewrite Hinject.
    simpl. eauto.
  - unfold grpc.ListSecrets, grpc.pb_unary, UnaryInterceptor. rewrite Hinject. simpl.
    destruct (be_names b); simpl; eauto.
  - unfold grpc.GetLatestSecret, grpc.pb_unary, UnaryInterceptor. rewrite Hinject. simpl.
    destruct (be_secret b); simpl; eauto.
  - unfold grpc.GetLatestSecretStream, grpc.pb_stream, StreamInterceptor.
    rewrite Hinject. simpl.
    destruct (be_download b) as [s|e]; simpl; [|eauto].
    destruct (Recv s) as [[first|e] s']; simpl; [|eauto].
    destruct (GetInfo first); simpl; eauto.
  - unfold grpc.GetSecretByVersion, grpc.pb_unary, UnaryInterceptor. rewrite Hinject. simpl.
    destruct (be_secret b); simpl; eauto.
  - unfold grpc.GetSecretStreamByVersion, grpc.pb_stream, StreamInterceptor.
    rewrite Hinject. simpl.
    destruct (be_download b) as [s|e]; simpl; [|eauto].
    destruct (Recv s) as [[first|e] s']; simpl; [|eauto].
    destruct (GetInfo first); simpl; eauto.
  - unfold grpc.DeleteSecret, grpc.pb_unary, UnaryInterceptor. rewrite Hinject. simpl.
    destruct (be_ack b); eauto.
Qed.

(** X4.  A login the backend accepts with a token, on a token store whose
    disk works, ends the [login] command without error after it printed
    "Successfully logged in" and leaves that token in the store; from then
    on every operation of a secret client built on the store carries
    authorization: Bearer <token>. *)
Theorem login_then_calls_carry_token :
  forall (a : AuthBackend) (r : TokenRepo) (token : string)
         (ctx : Context) (login password : string),
    loginAnswer a = inl {| Token := token |} ->
    token <> "" ->
    mkdirResult r = None ->
    writeResult r = None ->
    exists s' : AuthBackend * TokenRepo,
      cli.newLoginCmd ctx login password (a, r) = ((None, ["Successfully logged in"]), s')
      /\ GetToken s'.2 = inl token
      /\ (forall (wire : PbSecretType) (b : Backend) (fuel : nat) (op : SecretOp)
                 (w : Wire) (ctx' : Context),
            opReadsBound op < fuel ->
            exists (res : option error) (m : Method),
              runOp (recording b) fuel (grpc.NewSecretClient s'.2) ctx' op w
              = Some (res, w ++ [(m, withBearer ctx' token)])).
Proof.
  intros a r token ctx login password Hanswer Htoken Hmkdir Hwrite.
  assert (Hget : GetToken {| tokenFile := Contents token; mkdirResult := mkdirResult r;
                             writeResult := writeResult r |} = inl token).
  { simpl. unfold TokenRepo_GetToken. simpl.
    rewrite decide_False; [reflexivity|]. rewrite string_length_0. exact Htoken. }
  eexists. split; [|split].
  - unfold cli.newLoginCmd. simpl. unfold application.Login. simpl.
    unfold grpc.Login, answerLogin. rewrite Hanswer. simpl.
    rewrite decide_False by exact Htoken.
    unfold TokenRepo_SaveToken. rewrite decide_False by exact Htoken.
    rewrite Hmkdir, Hwrite. reflexivity.
  - simpl. rewrite <- Hmkdir at 1. rewrite <- Hwrite at 1. exact Hget.
  - intros wire b fuel op w ctx' Hfuel. simpl.
    apply runOp_recording_bearer; [|exact Hfuel].
    simpl. rewrite <- Hmkdir at 1. rewrite <- Hwrite at 1. exact Hget.
Qed.

Lemma login_then_calls_carry_token_witness :
  loginAnswer rightPassword = inl {| Token := "jwt" |}
  /\ "jwt" <> "" /\ mkdirResult loggedOut = None /\ writeResult loggedOut = None
  /\ exists s' : AuthBackend * TokenRepo,
       cli.newLoginCmd background "user" "right" (rightPassword, loggedOut)
       = ((None, ["Successfully logged in"]), s')
       /\ GetToken s'.2 = inl "jwt".
Proof.
  assert (Hne : "jwt" <> "") by discriminate.
  split; [reflexivity|]. split; [exact Hne|]. split; [reflexivity|]. split; [reflexivity|].
  destruct (login_then_calls_carry_token rightPassword loggedOut "jwt" background
              "user" "right" eq_refl Hne eq_refl eq_refl) as (s' & Hcmd & Hget & _).
  exists s'. split; [exact Hcmd | exact Hget].
Defined.

(** X5.  What the [login] and [register] commands report when the backend
    refuses with a gRPC status: [login] ends with [ErrInvalidCredentials]
    for the code InvalidArgument and with "failed to log in" for every
    other code, NotFound included, so [ErrUserNotFound] is never reported;
    [register] ends with [ErrLoginAlreayExists] for the code AlreadyExists
    and with "failed to register" for every other code.  Nothing is
    printed and the token store is left as it was. *)
Theorem auth_commands_report_backend_status :
  forall (T : Type) (tokens : TokenRepository T) (a : AuthBackend) (t : T)
         (c : Code) (msg : string) (ctx : Context) (login password : string),
    let a' := {| loginAnswer := loginAnswer a; registerAnswer := registerAnswer a;
                 authCalls := S (authCalls a) |} in
    (loginAnswer a = inr (status_Error c msg) ->
     cli.newLoginCmd ctx login password (a, t)
     = ((Some (if decide (c = codes_InvalidArgument) then ErrInvalidCredentials
               else errors_New "failed to log in"), []), (a', t)))
    /\ (registerAnswer a = inr (status_Error c msg) ->
        cli.newRegisterCmd ctx login password (a, t)
        = ((Some (if decide (c = codes_AlreadyExists) then ErrLoginAlreayExists
                  else errors_New "failed to register"), []), (a', t))).
Proof.
  intros T tokens a t c msg ctx login password a'. subst a'. split; intros Hanswer.
  - unfold cli.newLoginCmd. simpl. unfold application.Login. simpl.
    unfold grpc.Login, answerLogin. rewrite Hanswer. simpl.
    destruct c; reflexivity.
  - unfold cli.newRegisterCmd. simpl. unfold application.Register. simpl.
    unfold grpc.Register, answerRegister. rewrite Hanswer. simpl.
    destruct c; reflexivity.
Qed.

Lemma auth_commands_report_backend_status_witness :
  loginAnswer unknownUser = inr (status_Error codes_NotFound "user not found")
  /\ (cli.newLoginCmd background "nobody" "pw" (unknownUser, loggedOut)).1
     = (Some (errors_New "failed to log in"), []).
Proof.
  split; [reflexivity|].
  rewrite (proj1 (auth_commands_report_backend_status TokenRepo _ unknownUser loggedOut
                    codes_NotFound "user not found" background "nobody" "pw") eq_refl).
  reflexivity.
Defined.

(** ** More on the download reader *)

Lemma Read_loop_progress (incoming : list GetSecretChunkResponse) :
  forall (status : error) (recvs : nat) (buffer : list byte) (index size : nat),
    let res := grpc.Read_loop incoming status recvs buffer index size in
    (res.1.2 <> None -> res.1.1 = [])
    /\ (0 < size -> res.1.2 = None -> res.1.1 <> [])
    /\ (index <= length buffer -> grpc.index res.2 <= length (grpc.buffer res.2)).
Proof.
  induction incoming as [|response rest IH]; intros status recvs buffer index size; simpl.
  - destruct (decide (index < length buffer)) as [Hbuf|Hbuf]; simpl.
    + split; [intros Hne; contradiction|]. split.
      * intros Hsize _ Hnil. apply (f_equal length) in Hnil.
        rewrite length_take, length_drop in Hnil. simpl in Hnil. lia.
      * intros _. rewrite length_take, length_drop. lia.
    + split; [reflexivity|]. split; [discriminate|]. intros Hle. exact Hle.
  - destruct (decide (index < length buffer)) as [Hbuf|Hbuf]; simpl.
    + split; [intros Hne; contradiction|]. split.
      * intros Hsize _ Hnil. apply (f_equal length) in Hnil.
        rewrite length_take, length_drop in Hnil. simpl in Hnil. lia.
      * intros _. rewrite length_take, length_drop. lia.
    + destruct (GetData response) as [chunk|]; simpl.
      * destruct (IH status (S recvs) chunk 0 size) as (Herr & Hout & Hinv).
        split; [exact Herr|]. split; [exact Hout|]. intros _. apply Hinv. lia.
      * split; [reflexivity|]. split; [discriminate|]. intros Hle. exact Hle.
Qed.

(** X6.  A call of [Read] returns bytes or an error, never both; asked
    for at least one byte it never returns no byte without an error, so a
    caller that loops on it always advances; and the read position stays
    within the buffer. *)
Theorem Read_returns_bytes_or_error :
  forall (r : grpc.secretStreamReader) (size : nat),
    ((grpc.Read r size).1.2 <> None -> (grpc.Read r size).1.1 = [])
    /\ (0 < size -> (grpc.Read r size).1.2 = None -> (grpc.Read r size).1.1 <> [])
    /\ (grpc.index r <= length (grpc.buffer r) ->
        grpc.index (grpc.Read r size).2 <= length (grpc.buffer (grpc.Read r size).2)).
Proof. intros r size. unfold grpc.Read. apply Read_loop_progress. Qed.

Lemma Read_returns_bytes_or_error_witness :
  0 < 1
  /\ (grpc.Read emptyThenData 1).1.2 = None
  /\ (grpc.Read emptyThenData 1).1.1 <> [].
Proof.
  assert (Hsize : 0 < 1) by lia.
  assert (Hnil : (grpc.Read emptyThenData 1).1.2 = None) by reflexivity.
  split; [exact Hsize|]. split; [exact Hnil|].
  exact (proj1 (proj2 (Read_returns_bytes_or_error emptyThenData 1)) Hsize Hnil).
Defined.

Lemma Read_loop_EOF (incoming : list GetSecretChunkResponse) :
  forall (status : error) (recvs : nat) (buffer : list byte) (index size : nat),
    let res := grpc.Read_loop incoming status recvs buffer index size in
    res.1.2 = Some io_EOF ->
    gs_incoming (grpc.stream res.2) = []
    /\ ~ grpc.index res.2 < length (grpc.buffer res.2)
    /\ errors_Is (gs_status (grpc.stream res.2)) io_EOF = true.
Proof.
  induction incoming as [|response rest IH]; intros status recvs buffer index size; simpl.
  - destruct (decide (index < length buffer)) as [Hbuf|Hbuf]; simpl; [discriminate|].
    destruct (errors_Is status io_EOF) eqn:Heof; [auto|discriminate].
  - destruct (decide (index < length buffer)) as [Hbuf|Hbuf]; simpl; [discriminate|].
    destruct (GetData response) as [chunk|]; simpl; [apply IH|discriminate].
Qed.

(** X7.  The end of the stream is final: once a call of [Read] has
    returned [io.EOF], every later call returns no byte and [io.EOF]
    again, and leaves the reader as it is but for the count of receives. *)
Theorem Read_EOF_is_final :
  forall (r : grpc.secretStreamReader) (size size' : nat),
    (grpc.Read r size).1.2 = Some io_EOF ->
    (grpc.Read (grpc.Read r size).2 size').1 = ([], Some io_EOF)
    /\ grpc.buffer (grpc.Read (grpc.Read r size).2 size').2 = grpc.buffer (grpc.Read r size).2
    /\ grpc.index (grpc.Read (grpc.Read r size).2 size').2 = grpc.index (grpc.Read r size).2.
Proof.
  intros r size size' Heof.
  destruct (Read_loop_EOF (gs_incoming (grpc.stream r)) (gs_status (grpc.stream r))
              (gs_recvs (grpc.stream r)) (grpc.buffer r) (grpc.index r) size Heof)
    as (Hin & Hbuf & Hstatus).
  fold (grpc.Read r size) in Hin, Hbuf, Hstatus.
  rewrite (Read_eq (grpc.Read r size).2 size').
  rewrite decide_False by exact Hbuf.
  unfold Recv. rewrite Hin, Hstatus. simpl. auto.
Qed.

Lemma Read_EOF_is_final_witness :
  (grpc.Read (grpc.NewSecretStreamReader (incomingStream [])) 4).1.2 = Some io_EOF
  /\ (grpc.Read (grpc.Read (grpc.NewSecretStreamReader (incomingStream [])) 4).2 4).1
     = ([], Some io_EOF).
Proof.
  assert (Heof : (grpc.Read (grpc.NewSecretStreamReader (incomingStream [])) 4).1.2
                 = Some io_EOF) by reflexivity.
  split; [exact Heof|].
  exact (proj1 (Read_EOF_is_final (grpc.NewSecretStreamReader (incomingStream [])) 4 4 Heof)).
Defined.

Lemma errors_Is_New (msg : string) (target : error) :
  target <> errors_New msg -> errors_Is (errors_New msg) target = false.
Proof. intros Hne. simpl. rewrite decide_False; [reflexivity|]. congruence. Qed.

(** Reading to the end a stream that carries [Data] messages up to its end
    or up to a message that is not a [Data] message. *)
Lemma drain_until (sizes : nat -> nat) (Hsizes : forall i, 0 < sizes i) :
  forall (bound : nat) (chunks : list (list byte)) (rest : list GetSecretChunkResponse)
         (status : error) (buffer : list byte) (index recvs i fuel : nat),
    match rest with [] => True | m :: _ => GetData m = None end ->
    index <= length buffer ->
    (length buffer - index) + length chunks + length (concat chunks) <= bound ->
    bound < fuel ->
    exists r' : grpc.secretStreamReader,
      drain fuel sizes i
        {| grpc.stream := {| gs_incoming := (GetSecretChunkResponse_Data <$> chunks) ++ rest;
                             gs_status := status; gs_recvs := recvs |};
           grpc.buffer := buffer; grpc.index := index |}
      = Some (drop index buffer ++ concat chunks,
              match rest with
              | [] => if errors_Is status io_EOF then None
                      else Some (fmt_Errorf "stream read failed" status)
              | m :: _ => Some (errors_New ("expected data chunk, got "
                                            +:+ grpc.chunkTypeName m))
              end, r')
      /\ gs_incoming (grpc.stream r') = tl rest.
Proof.
  induction bound as [bound IH] using lt_wf_ind.
  intros chunks rest status buffer index recvs i fuel Hrest Hindex Hbound Hfuel.
  destruct fuel as [|fuel]; [lia|].
  simpl (drain _ _ _ _). rewrite Read_eq. simpl.
  destruct (decide (index < length buffer)) as [Hbuf|Hbuf].
  - pose proof (Hsizes i) as Hsize.
    set (out := take (sizes i) (drop index buffer)).
    assert (Hout : 0 < length out <= length buffer - index).
    { subst out. rewrite length_take, length_drop. lia. }
    destruct (IH (bound - 1) ltac:(lia) chunks rest status buffer (index + length out)
                recvs (S i) fuel Hrest) as (r' & Hr' & Hin); [lia..|].
    rewrite Hr'. exists r'. split; [|exact Hin]. subst out.
    rewrite <- drop_drop, app_assoc, drop_length_take. reflexivity.
  - rewrite (drop_ge buffer index) by lia.
    destruct chunks as [|chunk chunks]; simpl.
    + destruct rest as [|m rest]; simpl.
      * destruct (errors_Is status io_EOF) eqn:Heof.
        -- eexists. split; reflexivity.
        -- simpl. rewrite Heof. eexists. split; reflexivity.
      * rewrite Hrest. rewrite errors_Is_New by discriminate.
        eexists. split; reflexivity.
    + simpl in Hbound. rewrite length_app in Hbound.
      destruct (IH (bound - 1) ltac:(lia) chunks rest status chunk 0 (S recvs) i (S fuel) Hrest)
        as (r' & Hr' & Hin); [lia..|].
      exists r'. split; [exact Hr' | exact Hin].
Qed.

(** X8.  A caller that reads a download to its end, asking for any
    positive number of bytes at each call, gets the payloads of the [Data]
    messages in order up to the first fault and then that fault: the
    error "expected data chunk" for a message that is not a [Data]
    message, after which the messages behind it are left unread, or
    "stream read failed" wrapping the status of a stream that ends
    abnormally; a stream that ends with [io.EOF] gives every payload and no
    error. *)
Theorem download_stops_at_first_fault :
  forall (sizes : nat -> nat) (chunks : list (list byte))
         (rest : list GetSecretChunkResponse) (status : error) (reads : nat),
    (forall i, 0 < sizes i) ->
    match rest with [] => True | m :: _ => GetData m = None end ->
    length chunks + length (concat chunks) < reads ->
    exists r' : grpc.secretStreamReader,
      drain reads sizes 0
        (grpc.NewSecretStreamReader
           {| gs_incoming := (GetSecretChunkResponse_Data <$> chunks) ++ rest;
              gs_status := status; gs_recvs := 0 |})
      = Some (concat chunks,
              match rest with
              | [] => if errors_Is status io_EOF then None
                      else Some (fmt_Errorf "stream read failed" status)
              | m :: _ => Some (errors_New ("expected data chunk, got "
                                            +:+ grpc.chunkTypeName m))
              end, r')
      /\ gs_incoming (grpc.stream r') = tl rest.
Proof.
  intros sizes chunks rest status reads Hsizes Hrest Hreads.
  destruct (drain_until sizes Hsizes (length chunks + length (concat chunks))
              chunks rest status [] 0 0 0 reads Hrest) as (r' & Hr' & Hin);
    [simpl; lia..|].
  exists r'. split; [exact Hr' | exact Hin].
Qed.

Lemma download_stops_at_first_fault_witness :
  (forall i : nat, 0 < (fun _ => 2) i)
  /\ GetData GetSecretChunkResponse_unset = None
  /\ length [["x"%byte; "y"%byte; "z"%byte]] + length (concat [["x"%byte; "y"%byte; "z"%byte]]) < 9
  /\ exists r' : grpc.secretStreamReader,
       drain 9 (fun _ => 2) 0
         (grpc.NewSecretStreamReader
            {| gs_incoming := [GetSecretChunkResponse_Data ["x"%byte; "y"%byte; "z"%byte];
                               GetSecretChunkResponse_unset;
                               GetSecretChunkResponse_Data ["w"%byte]];
               gs_status := io_EOF; gs_recvs := 0 |})
       = Some (["x"%byte; "y"%byte; "z"%byte],
               Some (errors_New "expected data chunk, got <nil>"), r')
       /\ gs_incoming (grpc.stream r') = [GetSecretChunkResponse_Data ["w"%byte]].
Proof.
  assert (Hsizes : forall i : nat, 0 < (fun _ : nat => 2) i) by (intros i; simpl; lia).
  assert (Hreads : length [["x"%byte; "y"%byte; "z"%byte]]
                   + length (concat [["x"%byte; "y"%byte; "z"%byte]]) < 9) by (simpl; lia).
  split; [exact Hsizes|]. split; [reflexivity|]. split; [exact Hreads|].
  exact (download_stops_at_first_fault (fun _ => 2) [["x"%byte; "y"%byte; "z"%byte]]
           [GetSecretChunkResponse_unset; GetSecretChunkResponse_Data ["w"%byte]]
           io_EOF 9 Hsizes eq_refl Hreads).
Defined.

(** ** Streamed download as an operation *)

(** X9.  A streamed download returns a reader exactly when the stream
    could be opened and its first message is an [Info] message; the reader
    then stands on the messages after it, one receive made, with an empty
    buffer, and the secret info returned is the mapped [Info] message.  The
    same holds for the download of a given version. *)
Theorem download_returns_reader_iff_first_is_info :
  forall (P : PbSecretType) (T : Type) (R : TokenRepository T) (W : Type)
         (transport : forall m : Method, Context -> grpc.Req m -> W -> (grpc.Reply m + error) * W)
         (c : grpc.SecretClient T) (ctx : Context) (secretName : string) (version : Z)
         (w : W) (r : grpc.secretStreamReader) (info : SecretInfo),
    ((grpc.GetLatestSecretStream transport c ctx secretName w).1 = inl (r, info) <->
     exists (s : GetSecretStreamClient) (first : GetSecretInfoResponse)
            (rest : list GetSecretChunkResponse),
       (grpc.pb_stream transport c M_GetLatestSecretStream ctx secretName w).1 = inl s
       /\ gs_incoming s = GetSecretChunkResponse_Info first :: rest
       /\ r = {| grpc.stream := {| gs_incoming := rest; gs_status := gs_status s;
                                   gs_recvs := S (gs_recvs s) |};
                 grpc.buffer := []; grpc.index := 0 |}
       /\ info = mapProtoGetSecretInfoResponseToDomainSecretInfo (Some first))
    /\ ((grpc.GetSecretStreamByVersion transport c ctx secretName version w).1 = inl (r, info) <->
        exists (s : GetSecretStreamClient) (first : GetSecretInfoResponse)
               (rest : list GetSecretChunkResponse),
          (grpc.pb_stream transport c M_GetSecretStreamByVersion ctx (secretName, version) w).1
          = inl s
          /\ gs_incoming s = GetSecretChunkResponse_Info first :: rest
          /\ r = {| grpc.stream := {| gs_incoming := rest; gs_status := gs_status s;
                                      gs_recvs := S (gs_recvs s) |};
                    grpc.buffer := []; grpc.index := 0 |}
          /\ info = mapProtoGetSecretInfoResponseToDomainSecretInfo (Some first)).
Proof.
  intros P T R W transport c ctx secretName version w r info. split.
  - unfold grpc.GetLatestSecretStream.
    destruct (grpc.pb_stream transport c M_GetLatestSecretStream ctx secretName w)
      as [[s|err] w1]; simpl.
    + unfold Recv. destruct (gs_incoming s) as [|[first| |] rest] eqn:Hin; simpl.
      * split; [discriminate|]. intros (s' & first & rest & [= <-] & Hs & _).
        rewrite Hin in Hs. discriminate.
      * split.
        -- intros [= <- <-]. exists s, first, rest. auto.
        -- intros (s' & first' & rest' & [= <-] & Hs & -> & ->).
           rewrite Hin in Hs. injection Hs as <- <-. reflexivity.
      * split; [discriminate|]. intros (s' & first & rest' & [= <-] & Hs & _).
        rewrite Hin in Hs. discriminate.
      * split; [discriminate|]. intros (s' & first & rest' & [= <-] & Hs & _).
        rewrite Hin in Hs. discriminate.
    + split; [discriminate|]. intros (s' & first & rest & Hs & _). discriminate.
  - unfold grpc.GetSecretStreamByVersion.
    destruct (grpc.pb_stream transport c M_GetSecretStreamByVersion ctx (secretName, version) w)
      as [[s|err] w1]; simpl.
    + unfold Recv. destruct (gs_incoming s) as [|[first| |] rest] eqn:Hin; simpl.
      * split; [discriminate|]. intros (s' & first & rest & [= <-] & Hs & _).
        rewrite Hin in Hs. discriminate.
      * split.
        -- intros [= <- <-]. exists s, first, rest. auto.
        -- intros (s' & first' & rest' & [= <-] & Hs & -> & ->).
           rewrite Hin in Hs. injection Hs as <- <-. reflexivity.
      * split; [discriminate|]. intros (s' & first & rest' & [= <-] & Hs & _).
        rewrite Hin in Hs. discriminate.
      * split; [discriminate|]. intros (s' & first & rest' & [= <-] & Hs & _).
        rewrite Hin in Hs. discriminate.
    + split; [discriminate|]. intros (s' & first & rest & Hs & _). discriminate.
Qed.

Lemma download_returns_reader_witness :
  (grpc.pb_stream (recording twoLinesStored) recordingClient
     M_GetLatestSecretStream background "note" []).1
  = inl (incomingStream (replay 1 0 twoLinesSent))
  /\ (grpc.GetLatestSecretStream (wire := wire0123) (recording twoLinesStored)
        recordingClient background "note" []).1
     = inl ({| grpc.stream := {| gs_incoming := [GetSecretChunkResponse_Data (line "line1");
                                                 GetSecretChunkResponse_Data (line "line2")];
                                 gs_status := io_EOF; gs_recvs := 1 |};
               grpc.buffer := []; grpc.index := 0 |},
            mapProtoGetSecretInfoResponseToDomainSecretInfo (wire := wire0123)
              (Some {| gsi_Name := "note"; gsi_Type := 3; gsi_Metadata := "";
                       gsi_Version := 1; gsi_CreatedAt := 0 |})).
Proof.
  assert (Hopen : (grpc.pb_stream (recording twoLinesStored) recordingClient
                     M_GetLatestSecretStream background "note" []).1
                  = inl (incomingStream (replay 1 0 twoLinesSent))) by reflexivity.
  split; [exact Hopen|].
  apply (proj1 (download_returns_reader_iff_first_is_info wire0123 TokenRepo _ Wire
                  (recording twoLinesStored) recordingClient background "note" 0 [] _ _)).
  exists (incomingStream (replay 1 0 twoLinesSent)),
    {| gsi_Name := "note"; gsi_Type := 3; gsi_Metadata := "";
       gsi_Version := 1; gsi_CreatedAt := 0 |},
    [GetSecretChunkResponse_Data (line "line1"); GetSecretChunkResponse_Data (line "line2")].
  split; [exact Hopen|]. split; [vm_compute; reflexivity|]. split; reflexivity.
Defined.




(** ** Streamed upload, whatever its outcome *)

(** The loop of [sendDataChunks], whatever it returns: the payloads sent,
    at most one chunk that was read but not sent, and what the source
    still holds make up the content of the source; the stream is not
    closed by the loop. *)
Lemma sendDataChunks_accounting (fuel : nat) :
  forall (stream : CreateSecretStreamClient) (reader : Reader)
         (err : option error) (stream' : CreateSecretStreamClient) (reader' : Reader),
    grpc.sendDataChunks fuel stream reader = Some (err, stream', reader') ->
    exists (chunks : list (list byte)) (lost : list byte),
      cs_sent stream' = cs_sent stream ++ (CreateSecretChunkRequest_Data <$> chunks)
      /\ Forall (fun d => 0 < length d <= grpc.chunkSize) chunks
      /\ concat chunks ++ lost ++ content reader' = content reader
      /\ length lost <= grpc.chunkSize
      /\ cs_closed stream' = cs_closed stream
      /\ cs_closeResult stream' = cs_closeResult stream
      /\ (err = None -> lost = [] /\ pending reader' = []).
Proof.
  induction fuel as [|fuel IH]; intros stream reader err stream' reader' Hrun;
    [discriminate Hrun|].
  destruct reader as [segs e]. simpl in Hrun. unfold Reader_Read in Hrun. simpl in Hrun.
  destruct segs as [|seg rest].
  - exists [], []. rewrite app_nil_r.
    destruct (errors_Is e io_EOF); injection Hrun as <- <- <-;
      (split; [reflexivity|]; split; [constructor|]; split; [reflexivity|];
       split; [cbn [length]; lia|]; split; [reflexivity|]; split; [reflexivity|];
       intros Hnone; (discriminate Hnone || (split; reflexivity))).
  - pose proof (Reader_Read_content seg rest e grpc.chunkSize) as Hcut.
    destruct (decide (0 < length (take grpc.chunkSize seg))) as [Hpos|Hzero].
    + destruct (Send _ stream) as [[serr|] stream1] eqn:Hsend;
        apply Send_spec in Hsend; destruct Hsend as (Hclose & Hclosed & Hsent).
      * injection Hrun as <- <- <-. exists [], (take grpc.chunkSize seg).
        rewrite app_nil_r. repeat split; auto; try discriminate.
        rewrite length_take. lia.
      * apply IH in Hrun.
        destruct Hrun as (chunks & lost & Hs & Hall & Hacc & Hlost & Hcl & Hcr & Hok).
        exists (take grpc.chunkSize seg :: chunks), lost.
        split; [rewrite Hs, Hsent, <- app_assoc; reflexivity|].
        split; [constructor; [split; [exact Hpos|rewrite length_take; lia]|exact Hall]|].
        split; [cbn [concat]; rewrite <- app_assoc, Hacc; exact Hcut|].
        split; [exact Hlost|]. split; [congruence|]. split; [congruence|]. exact Hok.
    + apply IH in Hrun.
      destruct Hrun as (chunks & lost & Hs & Hall & Hacc & Hlost & Hcl & Hcr & Hok).
      exists chunks, lost.
      assert (Hnil : take grpc.chunkSize seg = []) by (apply length_zero_iff_nil; lia).
      rewrite Hnil in Hcut. simpl in Hcut.
      repeat split; auto; try (apply Hok; assumption). rewrite Hacc. exact Hcut.
Qed.

(** X11.  Whatever the outcome of a streamed upload, what it has put on
    the stream it opened is nothing, or the [Info] message of the secret
    followed by [Data] messages of one to 512 Ki bytes each; the payloads
    sent, at most one chunk that was read from the source and not sent,
    and the bytes the source still holds are the content of the source, in
    this order: the backend never sees anything but a prefix of the
    content.  When no stream could be opened or the [Info] message was not
    accepted, the source has not been read. *)
Theorem upload_sends_a_prefix :
  forall (P : PbSecretType) (T : Type) (R : TokenRepository T) (W : Type)
         (transport : forall m : Method, Context -> grpc.Req m -> W -> (grpc.Reply m + error) * W)
         (fuel : nat) (c : grpc.SecretClient T) (ctx : Context)
         (secret : Secret) (reader : Reader) (w : W),
    readsBound reader < fuel ->
    exists up : grpc.Upload W,
      grpc.CreateSecretStream transport fuel c ctx secret reader w = Some up
      /\ match grpc.up_stream up with
         | None => grpc.up_reader up = reader /\ is_Some (grpc.up_err up)
         | Some sN =>
             exists (s0 : CreateSecretStreamClient) (chunks : list (list byte))
                    (lost : list byte),
               grpc.pb_stream transport c M_CreateSecretStream ctx () w
                 = (inl s0, grpc.up_conn up)
               /\ ((cs_sent sN = cs_sent s0
                    /\ grpc.up_reader up = reader /\ is_Some (grpc.up_err up)
                    /\ chunks = [] /\ lost = [])
                   \/ cs_sent sN
                      = cs_sent s0
                        ++ CreateSecretChunkRequest_Info
                             (mapDomainSecretInfoToProtoCreateSecretInfoRequest (Info secret))
                           :: (CreateSecretChunkRequest_Data <$> chunks))
               /\ Forall (fun d => 0 < length d <= grpc.chunkSize) chunks
               /\ concat chunks ++ lost ++ content (grpc.up_reader up) = content reader
               /\ length lost <= grpc.chunkSize
               /\ (grpc.up_err up = None -> lost = [] /\ pending (grpc.up_reader up) = [])
         end.
Proof.
  intros P T R W transport fuel c ctx secret reader w Hfuel.
  unfold grpc.CreateSecretStream.
  destruct (grpc.pb_stream transport c M_CreateSecretStream ctx () w) as [[s0|err] w1].
  - unfold grpc.sendMetadataChunk.
    destruct (Send _ s0) as [[merr|] s1] eqn:Hmeta;
      apply Send_spec in Hmeta; destruct Hmeta as (_ & _ & Hs1).
    + eexists. split; [reflexivity|]. simpl. exists s0, [], [].
      split; [reflexivity|]. split; [left; repeat split; eauto|].
      split; [constructor|]. split; [reflexivity|]. split; [simpl; lia|]. discriminate.
    + destruct (sendDataChunks_total fuel s1 reader Hfuel) as [[[derr s2] r2] Hdata].
      rewrite Hdata.
      apply sendDataChunks_accounting in Hdata.
      destruct Hdata as (chunks & lost & Hs2 & Hall & Hacc & Hlost & _ & _ & Hok).
      assert (Hsent : cs_sent s2
                      = cs_sent s0
                        ++ CreateSecretChunkRequest_Info
                             (mapDomainSecretInfoToProtoCreateSecretInfoRequest (Info secret))
                           :: (CreateSecretChunkRequest_Data <$> chunks)).
      { rewrite Hs2, Hs1, <- app_assoc. reflexivity. }
      destruct derr as [derr|].
      * eexists. split; [reflexivity|]. simpl. exists s0, chunks, lost.
        split; [reflexivity|]. split; [right; exact Hsent|].
        split; [exact Hall|]. split; [exact Hacc|]. split; [exact Hlost|]. discriminate.
      * destruct (Hok eq_refl) as [-> Hdone].
        unfold CloseAndRecv. destruct (cs_closeResult s2) as [cerr|];
          (eexists; split; [reflexivity|]; simpl; exists s0, chunks, [];
           split; [reflexivity|]; split; [right; exact Hsent|];
           split; [exact Hall|]; split; [exact Hacc|]; split; [simpl; lia|];
           intros _; split; [reflexivity | exact Hdone]).
  - eexists. split; [reflexivity|]. simpl. split; [reflexivity|]. eauto.
Qed.

Lemma upload_sends_a_prefix_witness :
  readsBound twoLines < 20
  /\ exists up : grpc.Upload Wire,
       grpc.CreateSecretStream (wire := wire0123) (recording sendFailsAtSecond) 20
         recordingClient background textSecret twoLines [] = Some up
       /\ (from_option cs_sent [] (grpc.up_stream up),
           content (grpc.up_reader up), grpc.up_err up)
          = ([CreateSecretChunkRequest_Info {| csi_Name := "note"; csi_Type := 3;
                                               csi_Metadata := "" |}],
             line "line2",
             Some (fmt_Errorf "failed to send data chunks" (errors_New "broken pipe"))).
Proof.
  assert (Hfuel : readsBound twoLines < 20) by (vm_compute; lia).
  split; [exact Hfuel|].
  destruct (upload_sends_a_prefix wire0123 TokenRepo _ Wire (recording sendFailsAtSecond) 20
              recordingClient background textSecret twoLines [] Hfuel) as (up & Hup & _).
  exists up. split; [exact Hup|].
  assert (Heval : (fun o => (fun up => (from_option cs_sent [] (grpc.up_stream up),
                                        content (grpc.up_reader up), grpc.up_err up)) <$> o)
                    (grpc.CreateSecretStream (wire := wire0123) (recording sendFailsAtSecond)
                       20 recordingClient background textSecret twoLines [])
                  = Some ([CreateSecretChunkRequest_Info {| csi_Name := "note"; csi_Type := 3;
                                                            csi_Metadata := "" |}],
                          line "line2",
                          Some (fmt_Errorf "failed to send data chunks"
                                  (errors_New "broken pipe"))))
    by (vm_compute; reflexivity).
  rewrite Hup in Heval. simpl in Heval. injection Heval as -> -> ->. reflexivity.
Defined.



(** ** Failing calls *)

(** X13.  The secret client does not translate or hide a failure of the
    connection: when the call of an operation fails on the connection with
    an error, the operation returns an error that has it as its cause
    ([errors.Is]) and that still carries its gRPC status code
    ([status.FromError]); [CreateSecret] returns it as it is, the other
    operations under their own prefix.  A streamed upload then has read
    nothing from its source. *)
Theorem transport_error_is_reported_as_cause :
  forall (P : PbSecretType) (T : Type) (R : TokenRepository T) (W : Type)
         (c : grpc.SecretClient T) (token : string) (ctx : Context)
         (err : error) (fuel : nat) (op : SecretOp) (w : W),
    GetToken (repo (grpc.authInterceptor c)) = inl token ->
    exists e : error,
      runOp (failingTransport err) fuel c ctx op w = Some (Some e, w)
      /\ errors_Is e err = true
      /\ status_FromError e = status_FromError err
      /\ (forall secret, op = Op_CreateSecret secret -> e = err)
      /\ (forall secret reader,
            op = Op_CreateSecretStream secret reader ->
            grpc.up_reader <$> grpc.CreateSecretStream (failingTransport err) fuel c ctx
                                 secret reader w = Some reader).
Proof.
  intros P T R W c token ctx err fuel op w Htoken.
  pose proof (injectAuthMetadata_token (grpc.authInterceptor c) ctx token Htoken) as Hinject.
  destruct op; simpl;
    unfold grpc.CreateSecret, grpc.CreateSecretStream, grpc.ListSecrets,
      grpc.GetLatestSecret, grpc.GetLatestSecretStream, grpc.GetSecretByVersion,
      grpc.GetSecretStreamByVersion, grpc.DeleteSecret, grpc.pb_unary, grpc.pb_stream,
      UnaryInterceptor, StreamInterceptor;
    rewrite Hinject; simpl;
    (eexists; split; [reflexivity|]);
    (split; [repeat apply errors_Is_wrap; apply errors_Is_refl|]);
    (split; [reflexivity|]);
    (split; [intros ? [=]; reflexivity || intros ? [=]|]);
    first [intros ? ? [= <- <-]; reflexivity | intros ? ? [=]].
Qed.

Lemma transport_error_is_reported_as_cause_witness :
  GetToken (repo (grpc.authInterceptor recordingClient)) = inl "jwt"
  /\ runOp (wire := wire0123) (W := Wire)
       (failingTransport (status_Error codes_Unavailable "down")) 0
       recordingClient background Op_ListSecrets []
     = Some (Some (fmt_Errorf "client.ListSecrets" (status_Error codes_Unavailable "down")), []).
Proof.
  assert (Htoken : GetToken (repo (grpc.authInterceptor recordingClient)) = inl "jwt")
    by reflexivity.
  split; [exact Htoken|].
  destruct (transport_error_is_reported_as_cause wire0123 TokenRepo _ Wire recordingClient
              "jwt" background (status_Error codes_Unavailable "down") 0 Op_ListSecrets []
              Htoken) as (e & Hrun & _).
  assert (Heval : runOp (wire := wire0123) (W := Wire)
                    (failingTransport (status_Error codes_Unavailable "down")) 0
                    recordingClient background Op_ListSecrets []
                  = Some (Some (fmt_Errorf "client.ListSecrets"
                                  (status_Error codes_Unavailable "down")), []))
    by reflexivity.
  exact Heval.
Defined.

(** ** When an upload succeeds *)



